(** * SIPClient (src/lib/sip-client.ts): a shallow embedding

    The class is a thin adapter around the JsSIP user-agent library.  The
    embedding keeps the three fields of the class, records every call into
    the library, the console and the application callbacks as an effect, and
    takes what the library reports ([isConnected], [isRegistered], the events
    it emits) as input.

    Conventions.
    - A JavaScript string is a [string]; each character stands for one code
      unit below 256.
    - The two constructors of the library validate their argument and
      throw when they reject it; whether they do is asked of the library
      ([ws_rejects], [ua_rejects]), and the exception leaves [connect], which
      has no [try]/[catch].
    - The methods called on library objects and the application callbacks
      are recorded as effects and taken to return normally without
      re-entering the client.
    - [throw new Error(msg)] is the [inl msg] result of the monad [M]. *)

From Stdlib Require Import String Ascii List Bool Arith Lia.
Import ListNotations.
Open Scope string_scope.
Open Scope list_scope.

Set Implicit Arguments.

(** ** JavaScript string primitives used by the class *)

Module JS.

(** Code units removed by [String.prototype.trim] (WhiteSpace and
    LineTerminator), restricted to code units below 256:
    TAB, LF, VT, FF, CR, SP and NBSP. *)
Definition is_ws (c : ascii) : bool :=
  let n := nat_of_ascii c in
  (((9 <=? n) && (n <=? 13)) || (n =? 32) || (n =? 160))%nat.

Fixpoint trimStart (s : string) : string :=
  match s with
  | String c r => if is_ws c then trimStart r else s
  | EmptyString => EmptyString
  end.

Fixpoint trimEnd (s : string) : string :=
  match s with
  | EmptyString => EmptyString
  | String c r =>
      match trimEnd r with
      | EmptyString => if is_ws c then EmptyString else String c EmptyString
      | r' => String c r'
      end
  end.

Definition trim (s : string) : string := trimEnd (trimStart s).

(** Truthiness of a string: every string but the empty one. *)
Definition truthy (s : string) : bool :=
  match s with EmptyString => false | String _ _ => true end.

(** [s.split(sep)] for a one-character separator.  The result is never
    empty, so it is built as a first segment and the remaining ones. *)
Fixpoint split_segments (sep : ascii) (s : string) : string * list string :=
  match s with
  | EmptyString => (EmptyString, [])
  | String c r =>
      let '(h, t) := split_segments sep r in
      if Ascii.eqb c sep then (EmptyString, h :: t) else (String c h, t)
  end.

Definition split (sep : ascii) (s : string) : list string :=
  let '(h, t) := split_segments sep s in h :: t.

(** [`${v}`] for a value that is a string or [undefined]. *)
Definition template (v : option string) : string :=
  match v with Some s => s | None => "undefined" end.

Definition LF : ascii := ascii_of_nat 10.
Definition COMMA : ascii := ascii_of_nat 44.
Definition AT : ascii := ascii_of_nat 64.

End JS.

(** ** Data *)

(** The declaration of [SIPConfig] is not part of sip-client.ts; the record
    lists the fields the class reads, each of them used as a string. *)
Record SIPConfig := {
  wsServer : string;
  uri : string;
  password : string;
  displayName : string;
  stunServers : string
}.

(** [RTCIceServer], as [parseStunServers] builds it: [username] and
    [credential] are present on TURN entries only. *)
Record RTCIceServer := {
  urls : list string;
  username : option string;
  credential : option string
}.

(** Handle of a [JsSIP.UA] object: the n-th one created by [connect]. *)
Definition UA := nat.

(** A [JsSIP.RTCSession] object, with the one property the class reads. *)
Record RTCSession := {
  sid : nat;
  direction : string
}.

Definition RTCSession_eqb (a b : RTCSession) : bool :=
  (sid a =? sid b)%nat && String.eqb (direction a) (direction b).

Record WebSocketInterface := { ws_url : string }.

(** The [configuration] object literal of [connect]. *)
Record UAConfiguration := {
  sockets : list WebSocketInterface;
  cfg_uri : string;
  cfg_password : string;
  display_name : string;
  register : bool;
  register_expires : nat
}.

Record MediaConstraints := { audio : bool; video : bool }.

Record PcConfig := {
  iceServers : list RTCIceServer;
  iceTransportPolicy : string
}.

Record RtcOfferConstraints := {
  offerToReceiveAudio : bool;
  offerToReceiveVideo : bool
}.

(** The [callOptions] literal of [call]; [answer] builds the same literal
    without [rtcOfferConstraints]. *)
Record CallOptions := {
  mediaConstraints : MediaConstraints;
  pcConfig : PcConfig;
  rtcOfferConstraints : option RtcOfferConstraints
}.

(** The fields of the class.  The two callbacks of the constructor are not
    stored: calling them is an effect. *)
Record SIPClient := {
  config : SIPConfig;
  ua : option UA;
  currentSession : option RTCSession
}.

(** The client together with what its methods installed on library objects:
    [next_ua] user agents were created (each with the handlers of
    [connect]), [session_listeners] holds one entry per registration of the
    session handlers, and [ontrack] the peer connections whose [ontrack] was
    assigned. *)
Record World := {
  client : SIPClient;
  next_ua : nat;
  session_listeners : list RTCSession;
  ontrack : list nat
}.

(** What the library reports when asked: the status of a user agent, and
    for each constructor the message of the exception it throws on an
    argument it rejects ([None] when it accepts). *)
Record Lib := {
  ua_isConnected : UA -> bool;
  ua_isRegistered : UA -> bool;
  ws_rejects : string -> option string;
  ua_rejects : UAConfiguration -> option string
}.

Inductive Effect :=
| ConsoleLog (args : list string)
| ConsoleError (args : list string)
| ConnectionChange (status : string)
| CallStateChange (state : string) (session : option RTCSession)
| NewUA (u : UA) (configuration : UAConfiguration)
| UaStart (u : UA)
| UaStop (u : UA)
| UaCall (u : UA) (target : string) (options : CallOptions)
| SessionAnswer (s : RTCSession) (options : CallOptions)
| SessionTerminate (s : RTCSession)
| AppendAudio (stream : nat).

(** ** The monad of the methods: state, effect log and exceptions *)

Definition M (A : Type) : Type :=
  World -> (string + A) * World * list Effect.

Definition ret {A} (a : A) : M A := fun w => (inr a, w, []).

Definition bind {A B} (m : M A) (k : A -> M B) : M B :=
  fun w =>
    match m w with
    | (inl e, w1, l1) => (inl e, w1, l1)
    | (inr a, w1, l1) =>
        let '(r, w2, l2) := k a w1 in (r, w2, l1 ++ l2)
    end.

Definition throw {A} (msg : string) : M A := fun w => (inl msg, w, []).
Definition emit (e : Effect) : M unit := fun w => (inr tt, w, [e]).
Definition get_client : M SIPClient := fun w => (inr (client w), w, []).
Definition get_world : M World := fun w => (inr w, w, []).

Notation "x <- m ;; k" := (bind m (fun x => k))
  (at level 61, m at next level, right associativity).
Notation "m ;; k" := (bind m (fun _ => k))
  (at level 61, right associativity).

Definition set_ua (v : option UA) : M unit :=
  fun w =>
    (inr tt,
     {| client := {| config := config (client w); ua := v;
                     currentSession := currentSession (client w) |};
        next_ua := next_ua w;
        session_listeners := session_listeners w;
        ontrack := ontrack w |}, []).

Definition set_currentSession (v : option RTCSession) : M unit :=
  fun w =>
    (inr tt,
     {| client := {| config := config (client w); ua := ua (client w);
                     currentSession := v |};
        next_ua := next_ua w;
        session_listeners := session_listeners w;
        ontrack := ontrack w |}, []).

(** [new JsSIP.WebSocketInterface(url)]: throws on a URL the library
    rejects. *)
Definition new_WebSocketInterface (lib : Lib) (url : string)
  : M WebSocketInterface :=
  match ws_rejects lib url with
  | Some msg => throw msg
  | None => ret {| ws_url := url |}
  end.

(** [new JsSIP.UA(configuration)]: throws on a configuration the library
    rejects, and is a fresh handle otherwise. *)
Definition new_UA (lib : Lib) (c : UAConfiguration) : M UA :=
  fun w =>
    match ua_rejects lib c with
    | Some msg => (inl msg, w, [])
    | None =>
        (inr (next_ua w),
         {| client := client w;
            next_ua := S (next_ua w);
            session_listeners := session_listeners w;
            ontrack := ontrack w |}, [NewUA (next_ua w) c])
    end.

(** The block of [session.on(...)] calls of the [newRTCSession] handler. *)
Definition add_session_listeners (s : RTCSession) : M unit :=
  fun w =>
    (inr tt,
     {| client := client w;
        next_ua := next_ua w;
        session_listeners := s :: session_listeners w;
        ontrack := ontrack w |}, []).

(** [pc.ontrack = ...]: an assignment, so one handler per connection. *)
Definition set_ontrack (pc : nat) : M unit :=
  fun w =>
    (inr tt,
     {| client := client w;
        next_ua := next_ua w;
        session_listeners := session_listeners w;
        ontrack := if existsb (Nat.eqb pc) (ontrack w) then ontrack w
                   else pc :: ontrack w |}, []).

(** ** The methods of the class *)

(** [new SIPClient(config, onConnectionChange, onCallStateChange)] *)
Definition new_SIPClient (c : SIPConfig) : World :=
  {| client := {| config := c; ua := None; currentSession := None |};
     next_ua := 0;
     session_listeners := [];
     ontrack := [] |}.

(** The body of the [for] loop of [parseStunServers]. *)
Definition parseStunLine (line : string) : RTCIceServer :=
  let '(p0, rest) := JS.split_segments JS.COMMA line in
  let url := JS.trim p0 in
  match rest with
  | [p1; p2] =>
      {| urls := [url];
         username := Some (JS.trim p1);
         credential := Some (JS.trim p2) |}
  | _ => {| urls := [url]; username := None; credential := None |}
  end.

Definition stunLines (stunConfig : string) : list string :=
  filter (fun line => JS.truthy (JS.trim line)) (JS.split JS.LF stunConfig).

Definition parseStunServers (stunConfig : string) : list RTCIceServer :=
  map parseStunLine (stunLines stunConfig).

(** [connect()].  The [ua.on(...)] calls between [new JsSIP.UA] and
    [ua.start()] install the handlers [on_ua_event] below on the new user
    agent; [next_ua] counts the user agents that carry them.  A user agent
    already held is overwritten, not stopped.  When a constructor throws,
    nothing after it runs: [this.ua] keeps its value and nothing is
    started. *)
Definition connect (lib : Lib) : M unit :=
  c <- get_client ;;
  socket <- new_WebSocketInterface lib (wsServer (config c)) ;;
  let configuration :=
    {| sockets := [socket];
       cfg_uri := uri (config c);
       cfg_password := password (config c);
       display_name := displayName (config c);
       register := true;
       register_expires := 120 |} in
  u <- new_UA lib configuration ;;
  set_ua (Some u) ;;
  emit (UaStart u).

(** [disconnect()] *)
Definition disconnect : M unit :=
  c <- get_client ;;
  match ua c with
  | Some u => emit (UaStop u) ;; set_ua None
  | None => ret tt
  end.

(** [call(phoneNumber)] *)
Definition call (lib : Lib) (phoneNumber : string) : M unit :=
  c <- get_client ;;
  match ua c with
  | None => throw "Not registered"
  | Some u =>
      if negb (ua_isRegistered lib u) then throw "Not registered"
      else
        let callOptions :=
          {| mediaConstraints := {| audio := true; video := false |};
             pcConfig :=
               {| iceServers := parseStunServers (stunServers (config c));
                  iceTransportPolicy := "all" |};
             rtcOfferConstraints :=
               Some {| offerToReceiveAudio := true;
                       offerToReceiveVideo := false |} |} in
        let host := nth_error (JS.split JS.AT (uri (config c))) 1 in
        let target :=
          ("sip:" ++ phoneNumber ++ "@" ++ JS.template host)%string in
        emit (ConsoleLog ["Calling:"; target]) ;;
        emit (UaCall u target callOptions)
  end.

(** [answer()] *)
Definition answer : M unit :=
  c <- get_client ;;
  match currentSession c with
  | Some s =>
      if String.eqb (direction s) "incoming" then
        let callOptions :=
          {| mediaConstraints := {| audio := true; video := false |};
             pcConfig :=
               {| iceServers := parseStunServers (stunServers (config c));
                  iceTransportPolicy := "all" |};
             rtcOfferConstraints := None |} in
        emit (SessionAnswer s callOptions)
      else ret tt
  | None => ret tt
  end.

(** [hangup()] *)
Definition hangup : M unit :=
  c <- get_client ;;
  match currentSession c with
  | Some s => emit (SessionTerminate s) ;; set_currentSession None
  | None => ret tt
  end.

(** [isConnected()] and [isRegistered()]: [this.ua?.m() ?? false]. *)
Definition isConnected (lib : Lib) (w : World) : bool :=
  match ua (client w) with
  | Some u => ua_isConnected lib u
  | None => false
  end.

Definition isRegistered (lib : Lib) (w : World) : bool :=
  match ua (client w) with
  | Some u => ua_isRegistered lib u
  | None => false
  end.

(** ** The event handlers installed by [connect] *)

Inductive UAEvent :=
| connected
| disconnected
| registered
| unregistered
| registrationFailed (cause : string)
| newRTCSession (session : RTCSession).

Inductive SessionEvent :=
| peerconnection (pc : nat)
| accepted
| progress
| failed (cause : string)
| ended (cause : string)
| confirmed.

(** The handlers of [session.on(...)], closed over [session]. *)
Definition on_session_event (session : RTCSession) (e : SessionEvent)
  : M unit :=
  match e with
  | peerconnection pc => set_ontrack pc
  | accepted =>
      emit (ConsoleLog ["Call accepted"]) ;;
      emit (CallStateChange "answered" (Some session))
  | progress =>
      emit (ConsoleLog ["Call in progress"]) ;;
      emit (CallStateChange "ringing" (Some session))
  | failed cause =>
      emit (ConsoleLog ["Call failed:"; cause]) ;;
      emit (CallStateChange "failed" (Some session)) ;;
      set_currentSession None
  | ended cause =>
      emit (ConsoleLog ["Call ended:"; cause]) ;;
      emit (CallStateChange "ended" (Some session)) ;;
      set_currentSession None
  | confirmed =>
      emit (ConsoleLog ["Call confirmed"]) ;;
      emit (CallStateChange "answered" (Some session))
  end.

(** The handlers of [this.ua.on(...)]. *)
Definition on_ua_event (e : UAEvent) : M unit :=
  match e with
  | connected =>
      emit (ConsoleLog ["UA connected"]) ;;
      emit (ConnectionChange "connected")
  | disconnected =>
      emit (ConsoleLog ["UA disconnected"]) ;;
      emit (ConnectionChange "disconnected")
  | registered =>
      emit (ConsoleLog ["UA registered"]) ;;
      emit (ConnectionChange "registered")
  | unregistered =>
      emit (ConsoleLog ["UA unregistered"]) ;;
      emit (ConnectionChange "disconnected")
  | registrationFailed cause =>
      emit (ConsoleError ["Registration failed:"; cause]) ;;
      emit (ConnectionChange "error")
  | newRTCSession session =>
      set_currentSession (Some session) ;;
      emit (ConsoleLog ["New RTC session:"; direction session]) ;;
      add_session_listeners session ;;
      if String.eqb (direction session) "incoming"
      then emit (CallStateChange "incoming" (Some session))
      else ret tt
  end.

(** The [pc.ontrack] handler. *)
Definition on_track (kind : string) (stream : nat) : M unit :=
  emit (ConsoleLog ["Remote track received:"; kind]) ;;
  emit (AppendAudio stream).

(** ** The client driven by the application and by the library *)

(** A method called by the application, or an event emitted by a library
    object.  An event the library emits from inside a method the client
    called (a [newRTCSession] during [ua.call], an [ended] during
    [terminate]) is the input that follows that call. *)
Inductive Input :=
| OpConnect
| OpDisconnect
| OpCall (phoneNumber : string)
| OpAnswer
| OpHangup
| EvUa (u : UA) (e : UAEvent)
| EvSession (s : RTCSession) (e : SessionEvent)
| EvTrack (pc : nat) (kind : string) (stream : nat).

Fixpoint repeatM (n : nat) (m : M unit) : M unit :=
  match n with
  | 0 => ret tt
  | S k => m ;; repeatM k m
  end.

Definition listeners_on (s : RTCSession) (w : World) : nat :=
  length (filter (RTCSession_eqb s) (session_listeners w)).

(** An event reaches the handlers registered on the object that emits it:
    one set per user agent created by [connect], one set per
    [newRTCSession] that delivered the session. *)
Definition step (lib : Lib) (i : Input) : M unit :=
  match i with
  | OpConnect => connect lib
  | OpDisconnect => disconnect
  | OpCall phoneNumber => call lib phoneNumber
  | OpAnswer => answer
  | OpHangup => hangup
  | EvUa u e =>
      w <- get_world ;;
      if (u <? next_ua w)%nat then on_ua_event e else ret tt
  | EvSession s e =>
      w <- get_world ;;
      repeatM (listeners_on s w) (on_session_event s e)
  | EvTrack pc kind stream =>
      w <- get_world ;;
      if existsb (Nat.eqb pc) (ontrack w) then on_track kind stream
      else ret tt
  end.

(** A run: each input comes with what the library reports at that moment.
    An exception thrown by a method goes to the application; the client
    carries on from the state the method left. *)
Fixpoint exec (trace : list (Lib * Input)) (w : World)
  : World * list Effect :=
  match trace with
  | [] => (w, [])
  | (lib, i) :: rest =>
      let '(_, w1, l1) := step lib i w in
      let '(w2, l2) := exec rest w1 in
      (w2, l1 ++ l2)
  end.

(** ** Notions the statements below are phrased with *)

(** The events that end a session. *)
Definition is_terminal (e : SessionEvent) : bool :=
  match e with
  | failed _ | ended _ => true
  | _ => false
  end.

(** The input is an event emitted by, or delivering, the session [s]. *)
Definition about_session (s : RTCSession) (i : Input) : bool :=
  match i with
  | EvSession s' _ => RTCSession_eqb s s'
  | EvUa _ (newRTCSession s') => RTCSession_eqb s s'
  | _ => false
  end.

(** The effect reports a state of [s] to the application or acts on [s]. *)
Definition effect_on_session (s : RTCSession) (e : Effect) : bool :=
  match e with
  | CallStateChange _ (Some s') => RTCSession_eqb s s'
  | SessionAnswer s' _ => RTCSession_eqb s s'
  | SessionTerminate s' => RTCSession_eqb s s'
  | _ => false
  end.

Definition holds_session (s : RTCSession) (w : World) : bool :=
  match currentSession (client w) with
  | Some s' => RTCSession_eqb s s'
  | None => false
  end.

(** The portion of [s] after its first [c], if [c] occurs in [s]. *)
Fixpoint after_first (c : ascii) (s : string) : option string :=
  match s with
  | EmptyString => None
  | String a r => if Ascii.eqb a c then Some r else after_first c r
  end.

(** The portion of [s] before its first [c]; all of [s] without one. *)
Fixpoint before_first (c : ascii) (s : string) : string :=
  match s with
  | EmptyString => EmptyString
  | String a r => if Ascii.eqb a c then EmptyString
                  else String a (before_first c r)
  end.

(** [s] has at most one [c]. *)
Definition at_most_one (c : ascii) (s : string) : bool :=
  match after_first c s with
  | None => true
  | Some r => match after_first c r with None => true | Some _ => false end
  end.

(** The library accepts no configuration whose URI has a second [@]: no SIP
    URI has one. *)
Definition validates_uri (lib : Lib) : Prop :=
  forall c, ua_rejects lib c = None ->
            at_most_one JS.AT (cfg_uri c) = true.

(** The incoming leg of the call state machine in the words of the
    specification: an invite received makes the session [Ringing]; [accept]
    is valid from [Ringing] only and leads to [Connecting]; the answer makes
    it [Active]; a failure, an end or a [terminate] makes it
    [Terminated]. *)
Module CallSpec.

Inductive State := Idle | Ringing | Connecting | Active | Terminated.

(** The state of [s] after one more thing the client did or reported. *)
Definition next (s : RTCSession) (st : State) (e : Effect) : State :=
  match e with
  | CallStateChange name (Some s') =>
      if negb (RTCSession_eqb s s') then st
      else if String.eqb name "incoming" then Ringing
      else if String.eqb name "answered" then Active
      else if String.eqb name "failed" || String.eqb name "ended"
      then Terminated
      else st
  | SessionAnswer s' _ =>
      if RTCSession_eqb s s'
      then match st with Ringing => Connecting | _ => st end
      else st
  | SessionTerminate s' => if RTCSession_eqb s s' then Terminated else st
  | _ => st
  end.

Definition state_after (s : RTCSession) (history : list Effect) : State :=
  fold_left (next s) history Idle.

End CallSpec.

(** The renewal policy in the words of the specification: a failed renewal
    is retried after a delay that starts at 1 second, doubles per attempt
    and is capped at 32 seconds; the fifth consecutive failure makes the
    registration [Failed]. *)
Module RenewSpec.

Inductive Action :=
| RetryAfter (seconds : nat)
| Failed.

Definition maxRegisterRetries : nat := 5.

Definition backoff (attempt : nat) : nat := Nat.min 32 (2 ^ attempt).

(** What follows the [k]-th consecutive failure, counted from 1. *)
Definition on_failure (k : nat) : Action :=
  if (k <? maxRegisterRetries)%nat then RetryAfter (backoff (k - 1))
  else Failed.

End RenewSpec.

(** The client reported a failed registration to the application. *)
Definition reports_registration_error (l : list Effect) : bool :=
  existsb (fun e => match e with
                    | ConnectionChange st => String.eqb st "error"
                    | _ => false
                    end) l.

(** The client asked the library for another registration attempt: the only
    calls of the class that start one are [new JsSIP.UA] and [ua.start()]. *)
Definition retries_registration (l : list Effect) : bool :=
  existsb (fun e => match e with
                    | NewUA _ _ | UaStart _ => true
                    | _ => false
                    end) l.

(** The two shapes of line [parseStunServers] tells apart: a URL alone, or
    a URL with a user name and a credential.  An entry is taken as malformed
    when it has another number of fields or no URL. *)
Definition well_formed_entry (line : string) : bool :=
  let '(p0, rest) := JS.split_segments JS.COMMA line in
  JS.truthy (JS.trim p0) &&
  match rest with
  | [] | [_; _] => true
  | _ => false
  end.

(** No effect of [l] reports a state of [s] or acts on [s]. *)
Definition quiet_about (s : RTCSession) (l : list Effect) : bool :=
  forallb (fun e => negb (effect_on_session s e)) l.

(** No input of [trace] is an event of [s]. *)
Definition silent_about (s : RTCSession) (trace : list (Lib * Input)) : bool :=
  forallb (fun li => negb (about_session s (snd li))) trace.

(** The three components of a finished method. *)
Definition result_of {A} (x : (string + A) * World * list Effect)
  : string + A := fst (fst x).
Definition world_of {A} (x : (string + A) * World * list Effect)
  : World := snd (fst x).
Definition effects_of {A} (x : (string + A) * World * list Effect)
  : list Effect := snd x.

(** ** Notions for the properties of whole runs *)

(** The status strings [onConnectionChange] is called with. *)
Definition connection_status_known (e : Effect) : Prop :=
  match e with
  | ConnectionChange st =>
      In st ["connected"; "disconnected"; "registered"; "error"]
  | _ => True
  end.

(** The state strings [onCallStateChange] is called with, always together
    with a session. *)
Definition call_state_known (e : Effect) : Prop :=
  match e with
  | CallStateChange st (Some _) =>
      In st ["incoming"; "ringing"; "answered"; "failed"; "ended"]
  | CallStateChange _ None => False
  | _ => True
  end.

(** The session an input is about: the one that emits the event, or the one
    a [newRTCSession] event delivers.  A method call is about none. *)
Definition session_concerned (i : Input) : option RTCSession :=
  match i with
  | EvSession s _ => Some s
  | EvUa _ (newRTCSession s) => Some s
  | _ => None
  end.

(** The states [onCallStateChange] may be told in answer to an input. *)
Definition states_told (i : Input) : list string :=
  match i with
  | EvUa _ (newRTCSession _) => ["incoming"]
  | EvSession _ accepted | EvSession _ confirmed => ["answered"]
  | EvSession _ progress => ["ringing"]
  | EvSession _ (failed _) => ["failed"]
  | EvSession _ (ended _) => ["ended"]
  | _ => []
  end.

(** A call-state report made while handling [i] names the session [i] is
    about and a state that [i] can lead to. *)
Definition call_state_of_input (i : Input) (e : Effect) : Prop :=
  match e with
  | CallStateChange st x =>
      x <> None /\ x = session_concerned i /\ In st (states_told i)
  | _ => True
  end.

(** The effect is a method call on the user agent [u]. *)
Definition uses_ua (u : UA) (e : Effect) : bool :=
  match e with
  | UaStart u' | UaStop u' | UaCall u' _ _ => (u =? u')%nat
  | _ => false
  end.

(** The options an effect hands to the library, if it hands any. *)
Definition options_of (e : Effect) : option CallOptions :=
  match e with
  | UaCall _ _ o | SessionAnswer _ o => Some o
  | _ => None
  end.

(** The options are the ones [call] and [answer] build from [c]: audio
    only, and the servers parsed from [c]. *)
Definition options_from (c : SIPConfig) (e : Effect) : Prop :=
  forall o, options_of e = Some o ->
    mediaConstraints o = {| audio := true; video := false |}
    /\ pcConfig o = {| iceServers := parseStunServers (stunServers c);
                       iceTransportPolicy := "all" |}.

(** Every string of [l] is free of blanks at both ends. *)
Definition all_trimmed (l : list string) : Prop :=
  Forall (fun s => JS.trim s = s) l.

(** The strings an entry of the server list carries. *)
Definition entry_strings (e : RTCIceServer) : list string :=
  urls e
  ++ match username e with Some s => [s] | None => [] end
  ++ match credential e with Some s => [s] | None => [] end.

(** Every code unit of [s] is white space. *)
Fixpoint all_ws (s : string) : bool :=
  match s with
  | EmptyString => true
  | String c r => JS.is_ws c && all_ws r
  end.

(** The segments [h :: t] with [c] appended to the last of them. *)
Fixpoint extend_last (c : ascii) (h : string) (t : list string)
  : string * list string :=
  match t with
  | [] => ((h ++ String c EmptyString)%string, [])
  | x :: t' => let '(h', t'') := extend_last c x t' in (h, h' :: t'')
  end.

(** What an entry of the server list must look like, whatever the line it
    comes from: one URL, a user name exactly when there is a credential,
    and no blanks around any of them. *)
Definition entry_shape (e : RTCIceServer) : Prop :=
  length (urls e) = 1
  /\ (username e = None <-> credential e = None)
  /\ all_trimmed (entry_strings e).

(** ** Sample inputs *)

Module Sample.

Definition cfg : SIPConfig :=
  {| wsServer := "wss://pbx.example.com:8089/ws";
     uri := "sip:alice@example.com";
     password := "secret";
     displayName := "Alice";
     stunServers := "stun:stun.example.com:3478" |}.

(** A TURN line that lacks its credential. *)
Definition cfg_bad_turn : SIPConfig :=
  {| wsServer := wsServer cfg;
     uri := uri cfg;
     password := password cfg;
     displayName := displayName cfg;
     stunServers := "turn:turn.example.com:3478,bob" |}.

(** The sample libraries take any socket URL and refuse a URI with a second
    [@]. *)
Definition refuse_second_at (c : UAConfiguration) : option string :=
  if at_most_one JS.AT (cfg_uri c) then None
  else Some "Invalid value for parameter uri".

Definition lib_registered : Lib :=
  {| ua_isConnected := fun _ => true; ua_isRegistered := fun _ => true;
     ws_rejects := fun _ => None; ua_rejects := refuse_second_at |}.

Definition lib_unregistered : Lib :=
  {| ua_isConnected := fun _ => true; ua_isRegistered := fun _ => false;
     ws_rejects := fun _ => None; ua_rejects := refuse_second_at |}.


Definition incoming : RTCSession := {| sid := 1; direction := "incoming" |}.
Definition outgoing : RTCSession := {| sid := 2; direction := "outgoing" |}.

(** After [new SIPClient(cfg, ...)] and [connect()]. *)
Definition connected (c : SIPConfig) : World :=
  fst (exec [(lib_unregistered, OpConnect)] (new_SIPClient c)).

(** After the library delivered the session [s] on top of that. *)
Definition in_call (s : RTCSession) : World :=
  fst (exec [(lib_registered, EvUa 0 (newRTCSession s))] (connected cfg)).

End Sample.

Unset Implicit Arguments.

(** * Properties *)

(** ** Basic facts *)

Lemma RTCSession_eqb_eq (a b : RTCSession) :
  RTCSession_eqb a b = true <-> a = b.
Proof.
  unfold RTCSession_eqb. rewrite andb_true_iff, Nat.eqb_eq, String.eqb_eq.
  destruct a as [ia da], b as [ib db]; simpl. split.
  - intros [-> ->]. reflexivity.
  - intros H. injection H as -> ->. split; reflexivity.
Qed.

Lemma RTCSession_eqb_refl (a : RTCSession) : RTCSession_eqb a a = true.
Proof. apply RTCSession_eqb_eq. reflexivity. Qed.

(** ** [call] *)

(** C1. When the client holds no user agent, or its user agent reports that
    it is not registered, [call] throws [Error('Not registered')] at once:
    the client is left as it was and nothing is asked of the library, so no
    session comes into being.  When the user agent reports that it is
    registered, [call] returns normally after handing the call to
    [ua.call]. *)
Theorem call_requires_registration
  (lib : Lib) (phoneNumber : string) (w : World) :
  ((ua (client w) = None \/
    exists u, ua (client w) = Some u /\ ua_isRegistered lib u = false) ->
   call lib phoneNumber w = (inl "Not registered", w, []))
  /\
  (forall u, ua (client w) = Some u -> ua_isRegistered lib u = true ->
   exists target options,
     call lib phoneNumber w =
     (inr tt, w, [ConsoleLog ["Calling:"; target];
                  UaCall u target options])).
Proof.
  split.
  - intros [Hnone | (u & Hu & Hreg)];
      unfold call, bind, get_client, throw; simpl.
    + rewrite Hnone. reflexivity.
    + rewrite Hu, Hreg. reflexivity.
  - intros u Hu Hreg. unfold call, bind, get_client; simpl.
    rewrite Hu, Hreg. simpl. eexists. eexists. reflexivity.
Qed.

Lemma call_requires_registration_witness :
  call Sample.lib_unregistered "100" (Sample.connected Sample.cfg)
  = (inl "Not registered", Sample.connected Sample.cfg, [])
  /\
  exists target options,
    call Sample.lib_registered "100" (Sample.connected Sample.cfg)
    = (inr tt, Sample.connected Sample.cfg,
       [ConsoleLog ["Calling:"; target]; UaCall 0 target options]).
Proof.
  split.
  - apply (proj1 (call_requires_registration
                    Sample.lib_unregistered "100"
                    (Sample.connected Sample.cfg))).
    right. exists 0. split; reflexivity.
  - apply (proj2 (call_requires_registration
                    Sample.lib_registered "100"
                    (Sample.connected Sample.cfg)) 0); reflexivity.
Defined.

(** ** [hangup] *)

(** C3. Without a current session [hangup] does nothing: it returns
    normally, leaves the client as it was and calls nothing.  It never
    throws, a second [hangup] right after a first one is that no-op, and
    two in a row are the same as one. *)
Theorem hangup_idempotent (w : World) :
  (currentSession (client w) = None -> hangup w = (inr tt, w, []))
  /\ result_of (hangup w) = inr tt
  /\ hangup (world_of (hangup w)) = (inr tt, world_of (hangup w), [])
  /\ (hangup ;; hangup) w = hangup w.
Proof.
  unfold hangup, bind, get_client, result_of, world_of; simpl.
  destruct (currentSession (client w)) as [s|] eqn:Hs; simpl.
  - repeat split; try discriminate; reflexivity.
  - rewrite Hs. repeat split; reflexivity.
Qed.

Lemma hangup_idempotent_witness :
  hangup (new_SIPClient Sample.cfg) = (inr tt, new_SIPClient Sample.cfg, []).
Proof.
  apply (proj1 (hangup_idempotent (new_SIPClient Sample.cfg))).
  reflexivity.
Defined.

(** ** [answer] *)

(** C4, as the code has it.  The guard of [answer] is the direction of
    the current session and nothing else; the class keeps no state of a
    session, so whether the session still rings is not looked at.  [answer]
    never throws and never changes the client.  Without a current session,
    or with a current session whose direction is not ['incoming'], it calls
    nothing.  Whatever it answers is the current session and is incoming,
    and a current incoming session is answered every time, also when it
    was answered before. *)
Theorem answer_only_incoming (w : World) :
  result_of (answer w) = inr tt
  /\ world_of (answer w) = w
  /\ ((currentSession (client w) = None \/
       exists s, currentSession (client w) = Some s /\
                 direction s <> "incoming") ->
      answer w = (inr tt, w, []))
  /\ (forall s options,
        In (SessionAnswer s options) (effects_of (answer w)) ->
        currentSession (client w) = Some s /\ direction s = "incoming")
  /\ (forall s, currentSession (client w) = Some s ->
        direction s = "incoming" ->
        exists options, answer w = (inr tt, w, [SessionAnswer s options])).
Proof.
  unfold answer, bind, get_client, result_of, world_of, effects_of; simpl.
  destruct (currentSession (client w)) as [s|] eqn:Hs; simpl.
  - destruct (String.eqb (direction s) "incoming") eqn:Hd; simpl.
    + apply String.eqb_eq in Hd.
      split; [reflexivity | split; [reflexivity | split; [| split]]].
      * intros [H | (s' & H & Hn)]; [discriminate|].
        injection H as <-. contradiction.
      * intros s' o [H | []]. injection H as <- _.
        split; [reflexivity | assumption].
      * intros s' H _. injection H as <-. eexists. reflexivity.
    + apply String.eqb_neq in Hd.
      split; [reflexivity | split; [reflexivity | split; [| split]]].
      * reflexivity.
      * intros s' o [].
      * intros s' H Hi. injection H as <-. contradiction.
  - split; [reflexivity | split; [reflexivity | split; [| split]]].
    + reflexivity.
    + intros s' o [].
    + discriminate.
Qed.

Lemma answer_only_incoming_witness :
  answer (Sample.in_call Sample.outgoing)
  = (inr tt, Sample.in_call Sample.outgoing, [])
  /\ exists options,
       answer (Sample.in_call Sample.incoming)
       = (inr tt, Sample.in_call Sample.incoming,
          [SessionAnswer Sample.incoming options]).
Proof.
  split.
  - apply (proj1 (proj2 (proj2
             (answer_only_incoming (Sample.in_call Sample.outgoing))))).
    right. exists Sample.outgoing. split; [reflexivity | discriminate].
  - apply (proj2 (proj2 (proj2 (proj2
             (answer_only_incoming (Sample.in_call Sample.incoming)))))
             Sample.incoming); reflexivity.
Defined.

(** C4, as the claim words it, fails: the guard of [answer] looks at the
    direction of the current session and at nothing else.  An incoming
    session that the client answered and that the library reported as
    accepted has left [Ringing], yet the next [answer] calls
    [session.answer] on it again. *)
Lemma answered_session_is_answered_again :
  let lib := Sample.lib_registered in
  let trace := [(lib, EvUa 0 (newRTCSession Sample.incoming));
                (lib, OpAnswer);
                (lib, EvSession Sample.incoming accepted)] in
  let w := fst (exec trace (Sample.connected Sample.cfg)) in
  let history := snd (exec trace (Sample.connected Sample.cfg)) in
  CallSpec.state_after Sample.incoming history = CallSpec.Active
  /\ CallSpec.state_after Sample.incoming history <> CallSpec.Ringing
  /\ exists options,
       history
       = [ConsoleLog ["New RTC session:"; "incoming"];
          CallStateChange "incoming" (Some Sample.incoming);
          SessionAnswer Sample.incoming options;
          ConsoleLog ["Call accepted"];
          CallStateChange "answered" (Some Sample.incoming)]
       /\ answer w = (inr tt, w, [SessionAnswer Sample.incoming options]).
Proof.
  split; [reflexivity | split; [discriminate |]].
  eexists. split; reflexivity.
Qed.

(** ** [connect] *)

(** C5. The configuration [connect] builds for the user agent has
    [register] set and [register_expires] equal to 120, and takes the rest
    from the client's own configuration; no other configuration is ever
    handed to a user agent.  When the library accepts the socket URL and
    that configuration, [connect] returns normally, keeps the new user agent
    and starts it, which is what sends the first registration. *)
Theorem connect_registers_with_expiry_120 (lib : Lib) (w : World) :
  exists configuration,
    register configuration = true
    /\ register_expires configuration = 120
    /\ sockets configuration = [{| ws_url := wsServer (config (client w)) |}]
    /\ cfg_uri configuration = uri (config (client w))
    /\ cfg_password configuration = password (config (client w))
    /\ display_name configuration = displayName (config (client w))
    /\ (forall u c, In (NewUA u c) (effects_of (connect lib w)) ->
                    c = configuration)
    /\ (ws_rejects lib (wsServer (config (client w))) = None ->
        ua_rejects lib configuration = None ->
        result_of (connect lib w) = inr tt
        /\ effects_of (connect lib w)
           = [NewUA (next_ua w) configuration; UaStart (next_ua w)]
        /\ ua (client (world_of (connect lib w))) = Some (next_ua w)).
Proof.
  exists {| sockets := [{| ws_url := wsServer (config (client w)) |}];
            cfg_uri := uri (config (client w));
            cfg_password := password (config (client w));
            display_name := displayName (config (client w));
            register := true;
            register_expires := 120 |}.
  split; [| split; [| split; [| split; [| split; [| split; [| split]]]]]];
    [reflexivity | reflexivity | reflexivity | reflexivity | reflexivity
    | reflexivity | |].
  - intros u c.
    unfold connect, bind, get_client, new_WebSocketInterface, new_UA,
      set_ua, emit, throw, ret, effects_of.
    cbv beta iota. cbn [fst snd].
    destruct (ws_rejects lib (wsServer (config (client w)))); [intros [] |].
    cbv beta iota.
    match goal with
    | |- context [ua_rejects lib ?x] => destruct (ua_rejects lib x)
    end; [intros [] |].
    cbn. intros [H | [H | []]]; [| discriminate].
    injection H as _ <-. reflexivity.
  - intros Hws Hua.
    unfold connect, bind, get_client, new_WebSocketInterface, new_UA,
      set_ua, emit, throw, ret, result_of, world_of, effects_of.
    cbv beta iota. cbn [fst snd]. rewrite Hws. cbv beta iota.
    rewrite Hua. cbn. repeat split; reflexivity.
Qed.

Lemma connect_registers_with_expiry_120_witness :
  exists configuration,
    register configuration = true
    /\ register_expires configuration = 120
    /\ effects_of (connect Sample.lib_registered (new_SIPClient Sample.cfg))
       = [NewUA 0 configuration; UaStart 0].
Proof.
  destruct (connect_registers_with_expiry_120
              Sample.lib_registered (new_SIPClient Sample.cfg))
    as (configuration & Hr & He & Hs & Hu & Hp & Hd & _ & Hrun).
  exists configuration. split; [exact Hr | split; [exact He |]].
  apply Hrun.
  - reflexivity.
  - destruct configuration as [so cu cp dn rg ex]. cbn in *.
    subst cu. reflexivity.
Defined.

(** ** [disconnect] *)

(** C6. [disconnect] always returns normally and leaves the client without
    a user agent, whatever the library reports about registration.  A user
    agent that was held is stopped, once, and nothing else changes; without
    one, nothing happens at all. *)
Theorem disconnect_releases_user_agent (lib : Lib) (w : World) :
  result_of (step lib OpDisconnect w) = inr tt
  /\ ua (client (world_of (step lib OpDisconnect w))) = None
  /\ isRegistered lib (world_of (step lib OpDisconnect w)) = false
  /\ currentSession (client (world_of (step lib OpDisconnect w)))
     = currentSession (client w)
  /\ match ua (client w) with
     | Some u => effects_of (step lib OpDisconnect w) = [UaStop u]
     | None => step lib OpDisconnect w = (inr tt, w, [])
     end.
Proof.
  unfold step, disconnect, bind, get_client, set_ua, emit, isRegistered,
    result_of, world_of, effects_of; simpl.
  destruct (ua (client w)) as [u|] eqn:Hu; simpl.
  - repeat split; reflexivity.
  - rewrite Hu. repeat split; reflexivity.
Qed.

(** ** [isConnected] and [isRegistered] *)

(** C10. Both observers are functions of the client alone and answer
    [false] whenever the client holds no user agent: on a fresh client, and
    after any [disconnect], whatever the library would report. *)
Theorem observers_false_without_user_agent (lib : Lib) :
  (forall c, isConnected lib (new_SIPClient c) = false
             /\ isRegistered lib (new_SIPClient c) = false)
  /\ (forall w, ua (client w) = None ->
                isConnected lib w = false /\ isRegistered lib w = false)
  /\ (forall w, isConnected lib (world_of (disconnect w)) = false
                /\ isRegistered lib (world_of (disconnect w)) = false).
Proof.
  split; [| split].
  - intros c. split; reflexivity.
  - intros w H. unfold isConnected, isRegistered. rewrite H.
    split; reflexivity.
  - intros w.
    unfold isConnected, isRegistered, disconnect, bind, get_client,
      set_ua, emit, world_of; simpl.
    destruct (ua (client w)) as [u|] eqn:Hu; simpl.
    + split; reflexivity.
    + rewrite Hu. split; reflexivity.
Qed.

Lemma observers_false_without_user_agent_witness :
  isConnected Sample.lib_registered (new_SIPClient Sample.cfg) = false
  /\ isRegistered Sample.lib_registered (new_SIPClient Sample.cfg) = false.
Proof.
  apply (proj1 (proj2 (observers_false_without_user_agent
                         Sample.lib_registered))
           (new_SIPClient Sample.cfg)).
  reflexivity.
Defined.

(** ** Splitting strings *)

Lemma split_segments_first_rest (c : ascii) (s : string) :
  JS.split_segments c s =
  (before_first c s,
   match after_first c s with
   | Some r => JS.split c r
   | None => []
   end).
Proof.
  induction s as [|a r IH]; simpl.
  - reflexivity.
  - rewrite IH.
    destruct (Ascii.eqb a c); [unfold JS.split; rewrite IH |]; reflexivity.
Qed.

Lemma split_second (c : ascii) (s : string) :
  nth_error (JS.split c s) 1 = option_map (before_first c) (after_first c s).
Proof.
  unfold JS.split at 1. rewrite split_segments_first_rest. simpl.
  destruct (after_first c s) as [r|]; simpl.
  - unfold JS.split. rewrite split_segments_first_rest. reflexivity.
  - reflexivity.
Qed.

Lemma before_first_absent (c : ascii) (s : string) :
  after_first c s = None -> before_first c s = s.
Proof.
  induction s as [|a r IH]; simpl.
  - reflexivity.
  - destruct (Ascii.eqb a c); [discriminate|].
    intros H. rewrite (IH H). reflexivity.
Qed.

Lemma split_absent (c : ascii) (s : string) :
  after_first c s = None -> JS.split c s = [s].
Proof.
  intros H. unfold JS.split. rewrite split_segments_first_rest, H.
  rewrite (before_first_absent _ _ H). reflexivity.
Qed.

Lemma split_segments_app (c : ascii) (a b : string) :
  JS.split_segments c (a ++ String c b)%string =
  (fst (JS.split_segments c a),
   snd (JS.split_segments c a) ++ JS.split c b).
Proof.
  induction a as [|x a IH]; simpl.
  - rewrite Ascii.eqb_refl. unfold JS.split.
    destruct (JS.split_segments c b). reflexivity.
  - rewrite IH. destruct (JS.split_segments c a) as [h t]. simpl.
    destruct (Ascii.eqb x c); reflexivity.
Qed.

Lemma split_app (c : ascii) (a b : string) :
  JS.split c (a ++ String c b)%string = JS.split c a ++ JS.split c b.
Proof.
  unfold JS.split at 1 2. rewrite split_segments_app.
  destruct (JS.split_segments c a) as [h t]. reflexivity.
Qed.

(** ** The server list *)

Lemma stunLines_app (a b : string) :
  stunLines (a ++ String JS.LF b)%string = stunLines a ++ stunLines b.
Proof. unfold stunLines. rewrite split_app. apply filter_app. Qed.

Lemma stunLines_single (line : string) :
  after_first JS.LF line = None ->
  stunLines line = if JS.truthy (JS.trim line) then [line] else [].
Proof.
  intros H. unfold stunLines. rewrite (split_absent _ _ H). simpl.
  destruct (JS.truthy (JS.trim line)); reflexivity.
Qed.

(** C8, as the code has it.  Nothing validates the server list.  The
    constructor stores the configuration as given, and [parseStunServers],
    run by [call] and [answer], is total: it reads the text line by line,
    drops the blank lines and turns every other line into exactly one
    entry.  A line of exactly three comma-separated fields gives a URL with
    user name and credential, each trimmed; any other line gives its trimmed
    first field as URL and nothing else. *)
Theorem parseStunServers_accepts_every_line :
  (forall c, config (client (new_SIPClient c)) = c)
  /\ (forall s, length (parseStunServers s) = length (stunLines s))
  /\ (forall a b,
        parseStunServers (a ++ String JS.LF b)%string
        = parseStunServers a ++ parseStunServers b)
  /\ (forall line, after_first JS.LF line = None ->
        parseStunServers line
        = if JS.truthy (JS.trim line) then [parseStunLine line] else [])
  /\ (forall line,
        urls (parseStunLine line) = [JS.trim (before_first JS.COMMA line)]
        /\ (username (parseStunLine line), credential (parseStunLine line))
           = match JS.split JS.COMMA line with
             | [_; p1; p2] => (Some (JS.trim p1), Some (JS.trim p2))
             | _ => (None, None)
             end).
Proof.
  split; [| split; [| split; [| split]]].
  - reflexivity.
  - intros s. unfold parseStunServers. apply length_map.
  - intros a b. unfold parseStunServers.
    rewrite stunLines_app. apply map_app.
  - intros line H. unfold parseStunServers.
    rewrite (stunLines_single _ H).
    destruct (JS.truthy (JS.trim line)); reflexivity.
  - intros line. unfold parseStunLine, JS.split.
    rewrite split_segments_first_rest.
    destruct (after_first JS.COMMA line) as [r|]; [| split; reflexivity].
    destruct (JS.split JS.COMMA r) as [|p1 [|p2 [|p3 t]]];
      split; reflexivity.
Qed.

Lemma parseStunServers_accepts_every_line_witness :
  parseStunServers "turn:turn.example.com:3478,bob"
  = [parseStunLine "turn:turn.example.com:3478,bob"].
Proof.
  apply (proj1 (proj2 (proj2 (proj2 parseStunServers_accepts_every_line)))
           "turn:turn.example.com:3478,bob").
  reflexivity.
Defined.

(** C8, as the claim words it, fails: a TURN line without its credential is
    not rejected, neither when the client is built nor later.  The client is
    built, and [call] hands the library a server list whose entry keeps the
    URL and silently loses the user name. *)
Lemma malformed_entry_is_accepted :
  let w := Sample.connected Sample.cfg_bad_turn in
  forallb well_formed_entry (stunLines (stunServers Sample.cfg_bad_turn))
  = false
  /\ config (client (new_SIPClient Sample.cfg_bad_turn))
     = Sample.cfg_bad_turn
  /\ parseStunServers (stunServers Sample.cfg_bad_turn)
     = [{| urls := ["turn:turn.example.com:3478"];
           username := None; credential := None |}]
  /\ call Sample.lib_registered "100" w
     = (inr tt, w,
        [ConsoleLog ["Calling:"; "sip:100@example.com"];
         UaCall 0 "sip:100@example.com"
           {| mediaConstraints := {| audio := true; video := false |};
              pcConfig :=
                {| iceServers :=
                     [{| urls := ["turn:turn.example.com:3478"];
                         username := None; credential := None |}];
                   iceTransportPolicy := "all" |};
              rtcOfferConstraints :=
                Some {| offerToReceiveAudio := true;
                        offerToReceiveVideo := false |} |}]).
Proof. repeat split; reflexivity. Qed.

(** ** Registration failures *)

Lemma registrationFailed_step (lib : Lib) (w : World) (u : UA) (c : string) :
  u < next_ua w ->
  step lib (EvUa u (registrationFailed c)) w
  = (inr tt, w,
     [ConsoleError ["Registration failed:"; c]; ConnectionChange "error"]).
Proof.
  intros H. apply Nat.ltb_lt in H.
  unfold step, bind, get_world. cbv beta iota. rewrite H. reflexivity.
Qed.

(** C7, as the code has it.  The client has no renewal logic of its own: no
    retry, no backoff, no counter.  Each [registrationFailed] event of a
    user agent it created is logged and reported to the application as
    ['error'] at once, without an exception and without any change to the
    client; a run of [n] failures gives [n] reports and not one attempt to
    register again. *)
Theorem registration_failure_reported_never_retried
  (lib : Lib) (w : World) (u : UA) (causes : list string) :
  u < next_ua w ->
  let failures := map (fun c => (lib, EvUa u (registrationFailed c))) causes in
  (forall c, result_of (step lib (EvUa u (registrationFailed c)) w) = inr tt)
  /\ exec failures w
     = (w, flat_map (fun c => [ConsoleError ["Registration failed:"; c];
                               ConnectionChange "error"]) causes)
  /\ retries_registration (snd (exec failures w)) = false.
Proof.
  intros Hu failures.
  assert (Hrun : exec failures w
     = (w, flat_map (fun c => [ConsoleError ["Registration failed:"; c];
                               ConnectionChange "error"]) causes)).
  { unfold failures. clear failures.
    induction causes as [|c cs IH]; cbn [map exec flat_map].
    - reflexivity.
    - rewrite (@registrationFailed_step lib w u c Hu), IH. reflexivity. }
  split; [| split].
  - intros c. rewrite (@registrationFailed_step lib w u c Hu). reflexivity.
  - exact Hrun.
  - rewrite Hrun. simpl. clear. induction causes as [|c cs IH]; simpl.
    + reflexivity.
    + exact IH.
Qed.

Lemma registration_failure_reported_never_retried_witness :
  exec [(Sample.lib_registered, EvUa 0 (registrationFailed "Request Timeout"))]
       (Sample.connected Sample.cfg)
  = (Sample.connected Sample.cfg,
     [ConsoleError ["Registration failed:"; "Request Timeout"];
      ConnectionChange "error"]).
Proof.
  apply (proj1 (proj2 (@registration_failure_reported_never_retried
                         Sample.lib_registered
                         (Sample.connected Sample.cfg) 0
                         ["Request Timeout"] (Nat.lt_0_succ 0)))).
Defined.

(** C7, as the claim words it, fails at the first failure already: the
    policy of the specification answers a first failed renewal with a retry
    after one second and keeps [Failed] for the fifth, while the client
    reports the error right away and retries nothing. *)
Lemma first_failure_reported_at_once :
  let l := snd (exec [(Sample.lib_registered,
                       EvUa 0 (registrationFailed "Request Timeout"))]
                  (Sample.connected Sample.cfg)) in
  RenewSpec.on_failure 1 = RenewSpec.RetryAfter 1
  /\ l = [ConsoleError ["Registration failed:"; "Request Timeout"];
          ConnectionChange "error"]
  /\ reports_registration_error l = true
  /\ retries_registration l = false.
Proof. repeat split; reflexivity. Qed.

(** ** Sessions that ended *)

Lemma bind_inr {A B} (m : M A) (k : A -> M B) (w w1 : World) (a : A)
  (l1 : list Effect) :
  m w = (inr a, w1, l1) ->
  bind m k w
  = (result_of (k a w1), world_of (k a w1), l1 ++ effects_of (k a w1)).
Proof.
  intros H. unfold bind, result_of, world_of, effects_of. rewrite H.
  destruct (k a w1) as [[r w2] l2]. reflexivity.
Qed.

Lemma exec_cons (lib : Lib) (i : Input) (rest : list (Lib * Input))
  (w : World) :
  exec ((lib, i) :: rest) w
  = (fst (exec rest (world_of (step lib i w))),
     effects_of (step lib i w) ++ snd (exec rest (world_of (step lib i w)))).
Proof.
  cbn [exec]. unfold world_of, effects_of.
  destruct (step lib i w) as [[r w1] l1]. simpl.
  destruct (exec rest w1) as [w2 l2]. reflexivity.
Qed.

Lemma quiet_about_app (s : RTCSession) (l1 l2 : list Effect) :
  quiet_about s (l1 ++ l2) = quiet_about s l1 && quiet_about s l2.
Proof. apply forallb_app. Qed.

(** What one run of a session handler does, for the session it is closed
    over and for every other one. *)
Lemma on_session_event_run (s : RTCSession) (e : SessionEvent) (w : World) :
  exists w' l,
    on_session_event s e w = (inr tt, w', l)
    /\ session_listeners w' = session_listeners w
    /\ (currentSession (client w) = None ->
        currentSession (client w') = None)
    /\ (is_terminal e = true ->
        currentSession (client w') = None
        /\ In (CallStateChange
                 (match e with failed _ => "failed" | _ => "ended" end)
                 (Some s)) l)
    /\ (forall s0, RTCSession_eqb s0 s = false ->
        holds_session s0 w = false ->
        holds_session s0 w' = false /\ quiet_about s0 l = true).
Proof.
  destruct e; eexists; eexists; (split; [reflexivity |]);
    (split; [reflexivity |]); (split; [auto |]);
    (split; [try discriminate; intros _; simpl; auto |]);
    intros s0 Hne Hold; unfold holds_session, quiet_about in *; simpl;
    rewrite ?Hne; auto.
Qed.

Lemma repeatM_session_other
  (s s0 : RTCSession) (e : SessionEvent) (n : nat) (w : World) :
  RTCSession_eqb s0 s = false ->
  holds_session s0 w = false ->
  holds_session s0 (world_of (repeatM n (on_session_event s e) w)) = false
  /\ quiet_about s0 (effects_of (repeatM n (on_session_event s e) w)) = true.
Proof.
  intros Hne. revert w. induction n as [|n IH]; intros w Hold.
  - split; [exact Hold | reflexivity].
  - destruct (on_session_event_run s e w)
      as (w' & l & Hrun & _ & _ & _ & Hother).
    destruct (Hother s0 Hne Hold) as [Hold' Hq].
    cbn [repeatM]. erewrite bind_inr by exact Hrun.
    unfold world_of, effects_of at 1. cbn [fst snd].
    destruct (IH w' Hold') as [H1 H2].
    split; [exact H1 |].
    change (quiet_about s0
              (l ++ effects_of (repeatM n (on_session_event s e) w')) = true).
    rewrite quiet_about_app, Hq, H2. reflexivity.
Qed.

Lemma repeatM_session_result
  (s : RTCSession) (e : SessionEvent) (n : nat) (w : World) :
  result_of (repeatM n (on_session_event s e) w) = inr tt
  /\ (currentSession (client w) = None ->
      currentSession
        (client (world_of (repeatM n (on_session_event s e) w))) = None).
Proof.
  revert w. induction n as [|n IH]; intros w.
  - split; [reflexivity | auto].
  - destruct (on_session_event_run s e w)
      as (w' & l & Hrun & _ & Hnone & _ & _).
    cbn [repeatM]. erewrite bind_inr by exact Hrun.
    unfold result_of at 1, world_of at 1. cbn [fst snd].
    destruct (IH w') as [H1 H2]. split; [exact H1 | auto].
Qed.

Lemma repeatM_session_terminal
  (s : RTCSession) (e : SessionEvent) (n : nat) (w : World) :
  is_terminal e = true ->
  currentSession
    (client (world_of (repeatM (S n) (on_session_event s e) w))) = None
  /\ In (CallStateChange
           (match e with failed _ => "failed" | _ => "ended" end) (Some s))
        (effects_of (repeatM (S n) (on_session_event s e) w)).
Proof.
  intros Ht.
  destruct (on_session_event_run s e w)
    as (w' & l & Hrun & _ & _ & Hterm & _).
  destruct (Hterm Ht) as [Hnone Hin].
  cbn [repeatM]. erewrite bind_inr by exact Hrun.
  unfold world_of at 1, effects_of at 1. cbn [fst snd]. split.
  - apply repeatM_session_result. exact Hnone.
  - apply in_or_app. left. exact Hin.
Qed.

Lemma listeners_on_positive (s : RTCSession) (w : World) :
  In s (session_listeners w) -> exists n, listeners_on s w = S n.
Proof.
  intros H. unfold listeners_on.
  assert (Hf : In s (filter (RTCSession_eqb s) (session_listeners w))).
  { apply filter_In. split; [exact H | apply RTCSession_eqb_refl]. }
  destruct (filter (RTCSession_eqb s) (session_listeners w)) as [|x l].
  - destruct Hf.
  - exists (length l). reflexivity.
Qed.

(** A session the client does not hold stays out of its hands, and out of
    everything it does, as long as the library delivers no event of it. *)
Lemma step_keeps_released (lib : Lib) (i : Input) (s : RTCSession) (w : World) :
  holds_session s w = false ->
  about_session s i = false ->
  holds_session s (world_of (step lib i w)) = false
  /\ quiet_about s (effects_of (step lib i w)) = true.
Proof.
  intros Hold Hi. destruct i as [| |phone| | |u e|s' e|pc kind stream].
  - unfold step, connect, bind, get_client, new_WebSocketInterface, new_UA,
      throw, ret, world_of, effects_of.
    cbv beta iota. cbn [fst snd].
    destruct (ws_rejects lib (wsServer (config (client w))));
      [split; [exact Hold | reflexivity] |].
    cbv beta iota.
    match goal with
    | |- context [ua_rejects lib ?c] => destruct (ua_rejects lib c)
    end; split; first [exact Hold | reflexivity].
  - unfold step, disconnect, bind, get_client, world_of, effects_of.
    cbv beta iota. cbn [fst snd].
    destruct (ua (client w)); split; try reflexivity; exact Hold.
  - unfold step, call, bind, get_client, world_of, effects_of.
    cbv beta iota. cbn [fst snd].
    destruct (ua (client w)) as [u|]; [| split; [exact Hold | reflexivity]].
    destruct (ua_isRegistered lib u); split; try reflexivity; exact Hold.
  - assert (Hc : forall c, currentSession (client w) = Some c ->
                           RTCSession_eqb s c = false).
    { intros c Hc. unfold holds_session in Hold. rewrite Hc in Hold.
      exact Hold. }
    unfold step, answer, bind, get_client, world_of, effects_of.
    cbv beta iota. cbn [fst snd].
    destruct (currentSession (client w)) as [c|];
      [| split; [exact Hold | reflexivity]].
    destruct (String.eqb (direction c) "incoming"); simpl;
      (split; [exact Hold |]).
    + unfold quiet_about. simpl. rewrite (Hc c eq_refl). reflexivity.
    + reflexivity.
  - assert (Hc : forall c, currentSession (client w) = Some c ->
                           RTCSession_eqb s c = false).
    { intros c Hc. unfold holds_session in Hold. rewrite Hc in Hold.
      exact Hold. }
    unfold step, hangup, bind, get_client, world_of, effects_of.
    cbv beta iota. cbn [fst snd].
    destruct (currentSession (client w)) as [c|]; simpl.
    + split; [reflexivity |].
      unfold quiet_about. simpl. rewrite (Hc c eq_refl). reflexivity.
    + split; [exact Hold | reflexivity].
  - unfold step, bind, get_world, world_of, effects_of.
    cbv beta iota. cbn [fst snd].
    destruct (u <? next_ua w)%nat; [| split; [exact Hold | reflexivity]].
    destruct e as [| | | |cause|s']; try (split; [exact Hold | reflexivity]).
    simpl in Hi. simpl.
    destruct (String.eqb (direction s') "incoming"); simpl;
      unfold holds_session, quiet_about; simpl; rewrite Hi;
      split; reflexivity.
  - simpl in Hi. unfold step, bind, get_world.
    cbv beta iota.
    destruct (repeatM_session_other s' s e (listeners_on s' w) w Hi Hold)
      as [H1 H2].
    unfold world_of, effects_of in *.
    destruct (repeatM (listeners_on s' w) (on_session_event s' e) w)
      as [[r w1] l1].
    simpl in *. split; assumption.
  - unfold step, bind, get_world, world_of, effects_of.
    cbv beta iota. cbn [fst snd].
    destruct (existsb (Nat.eqb pc) (ontrack w));
      split; try reflexivity; exact Hold.
Qed.

Lemma exec_keeps_released (s : RTCSession) (trace : list (Lib * Input)) :
  forall w,
    holds_session s w = false ->
    silent_about s trace = true ->
    holds_session s (fst (exec trace w)) = false
    /\ quiet_about s (snd (exec trace w)) = true.
Proof.
  induction trace as [|[lib i] rest IH]; intros w Hold Hsilent.
  - split; [exact Hold | reflexivity].
  - unfold silent_about in Hsilent. cbn [forallb snd] in Hsilent.
    apply andb_true_iff in Hsilent. destruct Hsilent as [Hi Hrest].
    apply negb_true_iff in Hi.
    destruct (step_keeps_released lib i s w Hold Hi) as [H1 H2].
    destruct (IH _ H1 Hrest) as [H3 H4].
    rewrite exec_cons. cbn [fst snd]. split; [exact H3 |].
    rewrite quiet_about_app, H2, H4. reflexivity.
Qed.

(** C2, as the code has it.  When the library emits [failed] or [ended] on
    a session that carries the client's handlers, the client reports that
    state and holds no session any more, so a [hangup] or an [answer] that
    comes next finds none and does nothing.  From then on, whatever the
    application calls and whatever happens to other sessions, the client
    never holds that session again, reports no state of it and calls nothing
    on it, provided the library delivers no further event of it: the client
    keeps no record of ended sessions and leaves that to the library. *)
Theorem terminated_session_is_released
  (lib : Lib) (w : World) (s : RTCSession) (e : SessionEvent)
  (trace : list (Lib * Input)) :
  is_terminal e = true ->
  In s (session_listeners w) ->
  silent_about s trace = true ->
  let w1 := world_of (step lib (EvSession s e) w) in
  result_of (step lib (EvSession s e) w) = inr tt
  /\ In (CallStateChange
           (match e with failed _ => "failed" | _ => "ended" end) (Some s))
        (effects_of (step lib (EvSession s e) w))
  /\ currentSession (client w1) = None
  /\ hangup w1 = (inr tt, w1, [])
  /\ answer w1 = (inr tt, w1, [])
  /\ holds_session s (fst (exec trace w1)) = false
  /\ quiet_about s (snd (exec trace w1)) = true.
Proof.
  intros Ht Hin Hsilent w1.
  destruct (listeners_on_positive s w Hin) as [n Hn].
  assert (Hstep : step lib (EvSession s e) w
                  = repeatM (S n) (on_session_event s e) w).
  { unfold step, bind, get_world. cbv beta iota. rewrite Hn.
    destruct (repeatM (S n) (on_session_event s e) w) as [[r w'] l].
    destruct r; reflexivity. }
  destruct (repeatM_session_terminal s e n w Ht) as [Hnone Hrep].
  assert (Hcur : currentSession (client w1) = None).
  { unfold w1. rewrite Hstep. exact Hnone. }
  assert (Hold : holds_session s w1 = false).
  { unfold holds_session. rewrite Hcur. reflexivity. }
  split; [| split; [| split; [| split; [| split]]]].
  - rewrite Hstep. apply repeatM_session_result.
  - rewrite Hstep. exact Hrep.
  - exact Hcur.
  - unfold hangup, bind, get_client. cbv beta iota. rewrite Hcur.
    reflexivity.
  - unfold answer, bind, get_client. cbv beta iota. rewrite Hcur.
    reflexivity.
  - apply exec_keeps_released; assumption.
Qed.

Lemma terminated_session_is_released_witness :
  let lib := Sample.lib_registered in
  let w1 := world_of (step lib (EvSession Sample.incoming (ended "Terminated"))
                        (Sample.in_call Sample.incoming)) in
  let trace := [(lib, OpHangup); (lib, OpAnswer);
                (lib, EvUa 0 (newRTCSession Sample.outgoing));
                (lib, EvSession Sample.outgoing accepted);
                (lib, OpHangup)] in
  currentSession (client w1) = None
  /\ hangup w1 = (inr tt, w1, [])
  /\ answer w1 = (inr tt, w1, [])
  /\ holds_session Sample.incoming (fst (exec trace w1)) = false
  /\ quiet_about Sample.incoming (snd (exec trace w1)) = true.
Proof.
  intros lib w1 trace.
  apply (proj2 (proj2 (terminated_session_is_released
                         lib (Sample.in_call Sample.incoming)
                         Sample.incoming (ended "Terminated") trace
                         eq_refl (or_introl eq_refl) eq_refl))).
Defined.

(** C2, as the claim words it, fails: the handlers stay on a session that
    ended and nothing in the client remembers that it ended, so an event the
    library emits on it afterwards is reported to the application like any
    other. *)
Lemma ended_session_still_reported :
  let lib := Sample.lib_registered in
  let w1 := world_of (step lib (EvSession Sample.incoming (ended "Terminated"))
                        (Sample.in_call Sample.incoming)) in
  effects_of (step lib (EvSession Sample.incoming (ended "Terminated"))
                (Sample.in_call Sample.incoming))
  = [ConsoleLog ["Call ended:"; "Terminated"];
     CallStateChange "ended" (Some Sample.incoming)]
  /\ currentSession (client w1) = None
  /\ exec [(lib, EvSession Sample.incoming accepted)] w1
     = (w1, [ConsoleLog ["Call accepted"];
             CallStateChange "answered" (Some Sample.incoming)])
  /\ quiet_about Sample.incoming
       (snd (exec [(lib, EvSession Sample.incoming accepted)] w1)) = false.
Proof. repeat split; reflexivity. Qed.

(** * Further properties of the class *)

(** ** Reasoning about whole runs *)

Lemma step_session_eq (lib : Lib) (s : RTCSession) (e : SessionEvent)
  (w : World) :
  step lib (EvSession s e) w
  = repeatM (listeners_on s w) (on_session_event s e) w.
Proof.
  unfold step, bind, get_world. cbv beta iota.
  destruct (repeatM (listeners_on s w) (on_session_event s e) w)
    as [[r w'] l].
  destruct r; reflexivity.
Qed.

Lemma session_handler_returns (s : RTCSession) (e : SessionEvent) (w : World) :
  result_of (on_session_event s e w) = inr tt.
Proof. destruct e; reflexivity. Qed.

Lemma repeatM_session_unfold
  (s : RTCSession) (e : SessionEvent) (n : nat) (w : World) :
  world_of (repeatM (S n) (on_session_event s e) w)
  = world_of (repeatM n (on_session_event s e)
                (world_of (on_session_event s e w)))
  /\ effects_of (repeatM (S n) (on_session_event s e) w)
     = effects_of (on_session_event s e w)
       ++ effects_of (repeatM n (on_session_event s e)
                        (world_of (on_session_event s e w))).
Proof.
  pose proof (session_handler_returns s e w) as Hr.
  cbn [repeatM]. unfold bind, result_of, world_of, effects_of in *.
  destruct (on_session_event s e w) as [[r w1] l1]. simpl in Hr. subst r.
  simpl.
  destruct (repeatM n (on_session_event s e) w1) as [[r2 w2] l2].
  split; reflexivity.
Qed.

(** An invariant of the client that every input keeps, together with a
    property of every effect produced while it holds, carries over to all
    runs. *)
Section RunInvariant.

Variable Inv : World -> Prop.
Variable P : Effect -> Prop.

Hypothesis step_ok : forall lib i w,
  Inv w ->
  Inv (world_of (step lib i w)) /\ Forall P (effects_of (step lib i w)).

Lemma exec_invariant (trace : list (Lib * Input)) :
  forall w, Inv w ->
    Inv (fst (exec trace w)) /\ Forall P (snd (exec trace w)).
Proof.
  induction trace as [|[lib i] rest IH]; intros w Hw.
  - split; [exact Hw | constructor].
  - destruct (step_ok lib i w Hw) as [H1 H2].
    destruct (IH _ H1) as [H3 H4].
    rewrite exec_cons. cbn [fst snd]. split; [exact H3 |].
    apply Forall_app. split; assumption.
Qed.

End RunInvariant.

Section SessionInvariant.

Variable Inv : World -> Prop.
Variable P : Effect -> Prop.
Variable s : RTCSession.
Variable e : SessionEvent.

Hypothesis handler_ok : forall w,
  Inv w ->
  Inv (world_of (on_session_event s e w))
  /\ Forall P (effects_of (on_session_event s e w)).

Lemma repeatM_invariant (n : nat) :
  forall w, Inv w ->
    Inv (world_of (repeatM n (on_session_event s e) w))
    /\ Forall P (effects_of (repeatM n (on_session_event s e) w)).
Proof.
  induction n as [|n IH]; intros w Hw.
  - split; [exact Hw | constructor].
  - destruct (handler_ok w Hw) as [H1 H2].
    destruct (IH _ H1) as [H3 H4].
    destruct (repeatM_session_unfold s e n w) as [Ew El].
    rewrite Ew, El. split; [exact H3 |].
    apply Forall_app. split; assumption.
Qed.

End SessionInvariant.

(** The two ways [connect] can go: a constructor throws and nothing
    happened, or a user agent was made from an accepted configuration, kept
    and started. *)
Lemma connect_cases (lib : Lib) (w : World) :
  (exists msg, connect lib w = (inl msg, w, []))
  \/ (exists configuration,
        cfg_uri configuration = uri (config (client w))
        /\ ua_rejects lib configuration = None
        /\ connect lib w
           = (inr tt,
              {| client := {| config := config (client w);
                              ua := Some (next_ua w);
                              currentSession := currentSession (client w) |};
                 next_ua := S (next_ua w);
                 session_listeners := session_listeners w;
                 ontrack := ontrack w |},
              [NewUA (next_ua w) configuration; UaStart (next_ua w)])).
Proof.
  unfold connect, bind, get_client, new_WebSocketInterface, new_UA,
    set_ua, emit, throw, ret.
  cbv beta iota.
  destruct (ws_rejects lib (wsServer (config (client w)))) as [msg|];
    [left; exists msg; reflexivity |].
  cbv beta iota.
  match goal with
  | |- context [ua_rejects lib ?x] => destruct (ua_rejects lib x) as [msg|] eqn:E
  end; [left; exists msg; reflexivity |].
  right. eexists. split; [| split; [exact E |]]; reflexivity.
Qed.

Ltac connect_case lib w :=
  unfold step;
  let msg := fresh "msg" in
  let cfg := fresh "cfg" in
  let Huri := fresh "Huri" in
  let Hacc := fresh "Hacc" in
  let Hrun := fresh "Hrun" in
  destruct (connect_cases lib w)
    as [[msg Hrun] | (cfg & Huri & Hacc & Hrun)];
  rewrite Hrun; unfold world_of, effects_of; cbn [fst snd].

(** Case analysis on one input: the session events are left to
    [repeatM_invariant], everything else is computed. *)
Ltac run_method :=
  unfold step, connect, disconnect, call, answer, hangup, on_ua_event,
    on_track, bind, get_client, get_world, new_WebSocketInterface, new_UA,
    set_ua, set_currentSession, add_session_listeners, set_ontrack, emit, ret,
    throw, world_of, effects_of;
  cbv beta iota; cbn [fst snd].

Ltac branch :=
  repeat match goal with
         | |- context [match ws_rejects ?l ?x with _ => _ end] =>
             destruct (ws_rejects l x) eqn:?
         | |- context [match ua_rejects ?l ?x with _ => _ end] =>
             destruct (ua_rejects l x) eqn:?
         | |- context [match ua (client ?w) with _ => _ end] =>
             destruct (ua (client w)) eqn:?
         | |- context [match currentSession (client ?w) with _ => _ end] =>
             destruct (currentSession (client w)) eqn:?
         | |- context [if negb (ua_isRegistered ?l ?u) then _ else _] =>
             destruct (ua_isRegistered l u) eqn:?
         | |- context [if String.eqb (direction ?s) ?t then _ else _] =>
             destruct (String.eqb (direction s) t) eqn:?
         | |- context [if (?u <? ?n)%nat then _ else _] =>
             destruct (u <? n)%nat eqn:?
         | |- context [if existsb ?f ?l then _ else _] =>
             destruct (existsb f l) eqn:?
         end;
  cbn [negb fst snd app].

(** ** The configuration *)

Ltac each_effect tac :=
  repeat first [apply Forall_nil | apply Forall_cons; [tac |]].

Ltac no_options := intros ? ?; discriminate.

Lemma step_config_options (c : SIPConfig) (lib : Lib) (i : Input) (w : World) :
  config (client w) = c ->
  config (client (world_of (step lib i w))) = c
  /\ Forall (options_from c) (effects_of (step lib i w)).
Proof.
  intros Hc.
  assert (Hown : forall o,
            o = {| mediaConstraints := {| audio := true; video := false |};
                   pcConfig :=
                     {| iceServers :=
                          parseStunServers (stunServers (config (client w)));
                        iceTransportPolicy := "all" |};
                   rtcOfferConstraints := rtcOfferConstraints o |} ->
            forall e, options_of e = Some o -> options_from c e).
  { intros o Ho e He o' He'. rewrite He in He'. injection He' as <-.
    rewrite Ho, Hc. split; reflexivity. }
  destruct i as [| |phone| | |u e|s e|pc kind stream].
  - connect_case lib w; (split; [exact Hc | each_effect no_options]).
  - run_method. branch; (split; [exact Hc | each_effect no_options]).
  - run_method. branch; (split; [exact Hc |]);
      each_effect ltac:(first [no_options
                              | eapply Hown; [| reflexivity]; reflexivity]).
  - run_method. branch; (split; [exact Hc |]);
      each_effect ltac:(first [no_options
                              | eapply Hown; [| reflexivity]; reflexivity]).
  - run_method. branch; (split; [exact Hc | each_effect no_options]).
  - run_method. branch; [| split; [exact Hc | constructor]].
    destruct e; cbv beta iota; cbn [fst snd app]; branch;
      (split; [exact Hc | each_effect no_options]).
  - rewrite step_session_eq.
    apply (repeatM_invariant (fun w' => config (client w') = c)); [| exact Hc].
    intros w' Hw'.
    destruct e; (split; [exact Hw' | each_effect no_options]).
  - run_method. branch; (split; [exact Hc | each_effect no_options]).
Qed.

(** X1. No method and no event handler ever changes the configuration the
    client was built with: after any run it is the one of the start. *)
Theorem config_never_changes (trace : list (Lib * Input)) (w : World) :
  config (client (fst (exec trace w))) = config (client w).
Proof.
  apply (exec_invariant
           (fun w' => config (client w') = config (client w))
           (options_from (config (client w)))).
  - intros lib i w' Hw'. apply step_config_options. exact Hw'.
  - reflexivity.
Qed.

(** X2. Whatever happens in a run, every set of options the client hands
    to the library, in [ua.call] or in [session.answer], asks for audio
    without video, allows all ICE transports and lists the servers parsed
    from the [stunServers] text of the configuration. *)
Theorem library_gets_configured_servers
  (trace : list (Lib * Input)) (w : World) :
  Forall (options_from (config (client w))) (snd (exec trace w)).
Proof.
  apply (exec_invariant
           (fun w' => config (client w') = config (client w))
           (options_from (config (client w)))).
  - intros lib i w' Hw'. apply step_config_options. exact Hw'.
  - reflexivity.
Qed.

(** ** What the application is told *)

Ltac known := cbn; tauto.

Lemma step_reports_known (lib : Lib) (i : Input) (w : World) :
  Forall (fun e => connection_status_known e /\ call_state_known e)
    (effects_of (step lib i w)).
Proof.
  destruct i as [| |phone| | |u e|s e|pc kind stream].
  - connect_case lib w; each_effect known.
  - run_method. branch; each_effect known.
  - run_method. branch; each_effect known.
  - run_method. branch; each_effect known.
  - run_method. branch; each_effect known.
  - run_method. branch; [| constructor].
    destruct e; cbv beta iota; cbn [fst snd app]; branch; each_effect known.
  - rewrite step_session_eq.
    apply (repeatM_invariant (fun _ => True)); [| exact I].
    intros w' _. destruct e; (split; [exact I | each_effect known]).
  - run_method. branch; each_effect known.
Qed.

Ltac told := cbn; repeat split; try discriminate; auto.

Lemma step_reports_concerned (lib : Lib) (i : Input) (w : World) :
  Forall (call_state_of_input i) (effects_of (step lib i w)).
Proof.
  destruct i as [| |phone| | |u e|s e|pc kind stream].
  - connect_case lib w; each_effect told.
  - run_method. branch; each_effect told.
  - run_method. branch; each_effect told.
  - run_method. branch; each_effect told.
  - run_method. branch; each_effect told.
  - run_method. branch; [| constructor].
    destruct e; cbv beta iota; cbn [fst snd app]; branch; each_effect told.
  - rewrite step_session_eq.
    apply (repeatM_invariant (fun _ => True)); [| exact I].
    intros w' _. destruct e; (split; [exact I | each_effect told]).
  - run_method. branch; each_effect told.
Qed.

(** X3. In every run the application callbacks are called with a closed
    vocabulary: [onConnectionChange] only with ['connected'],
    ['disconnected'], ['registered'] or ['error'], and [onCallStateChange]
    only with ['incoming'], ['ringing'], ['answered'], ['failed'] or
    ['ended'].  [onCallStateChange] is called only while an event is
    handled, never by a method, and always with the session concerned: the
    session that emitted the event, or the session a [newRTCSession] event
    delivers, and with a state that fits the event. *)
Theorem callbacks_use_known_states :
  (forall (trace : list (Lib * Input)) (w : World),
     Forall (fun e => connection_status_known e /\ call_state_known e)
       (snd (exec trace w)))
  /\ (forall (lib : Lib) (i : Input) (w : World),
        Forall (call_state_of_input i) (effects_of (step lib i w))).
Proof.
  split.
  - intros trace w.
    apply (exec_invariant (fun _ => True)
             (fun e => connection_status_known e /\ call_state_known e)).
    + intros lib i w' _. split; [exact I | apply step_reports_known].
    + exact I.
  - apply step_reports_concerned.
Qed.

(** ** User agents *)

Lemma step_keeps_replaced (u : UA) (lib : Lib) (i : Input) (w : World) :
  u < next_ua w /\ ua (client w) <> Some u ->
  (u < next_ua (world_of (step lib i w))
   /\ ua (client (world_of (step lib i w))) <> Some u)
  /\ Forall (fun e => uses_ua u e = false) (effects_of (step lib i w)).
Proof.
  unfold UA in *. intros [Hlt Hne].
  assert (Hfresh : (u =? next_ua w)%nat = false)
    by (apply Nat.eqb_neq; lia).
  assert (Hother : forall u0, ua (client w) = Some u0 ->
                              (u =? u0)%nat = false).
  { intros u0 H0. apply Nat.eqb_neq. intros ->. contradiction. }
  destruct i as [| |phone| | |u0 e|s e|pc kind stream].
  - connect_case lib w; cbn.
    + split; [split; assumption | constructor].
    + split; [split; [lia | intros H; injection H; lia] |].
      each_effect ltac:(first [reflexivity | exact Hfresh]).
  - run_method. branch; cbn [ua client next_ua];
      (split; [split; [exact Hlt | congruence] |]);
      each_effect ltac:(first [reflexivity | cbn; auto]).
  - run_method. branch; cbn [ua client next_ua];
      (split; [split; [exact Hlt | congruence] |]);
      each_effect ltac:(first [reflexivity | cbn; auto]).
  - run_method. branch; cbn [ua client next_ua];
      (split; [split; [exact Hlt | congruence] |]);
      each_effect reflexivity.
  - run_method. branch; cbn [ua client next_ua];
      (split; [split; [exact Hlt | congruence] |]);
      each_effect reflexivity.
  - run_method. branch; [| split; [split; assumption | constructor]].
    destruct e; cbv beta iota; cbn [fst snd app]; branch;
      (split; [split; [exact Hlt | exact Hne] |]); each_effect reflexivity.
  - rewrite step_session_eq.
    apply (repeatM_invariant
             (fun w' => u < next_ua w' /\ ua (client w') <> Some u));
      [| split; assumption].
    intros w' Hw'. destruct e; (split; [exact Hw' |]);
      each_effect reflexivity.
  - run_method. branch; (split; [split; assumption |]);
      each_effect reflexivity.
Qed.

(** X4. A user agent the client created and no longer holds, because a
    later [connect] replaced it or a [disconnect] dropped it, is never held
    again and never touched again: in no run that follows does the client
    call [start], [stop] or [call] on it.  In particular a user agent
    replaced by a second [connect] is never stopped. *)
Theorem replaced_user_agent_never_used
  (u : UA) (trace : list (Lib * Input)) (w : World) :
  u < next_ua w ->
  ua (client w) <> Some u ->
  ua (client (fst (exec trace w))) <> Some u
  /\ Forall (fun e => uses_ua u e = false) (snd (exec trace w)).
Proof.
  intros Hlt Hne.
  destruct (exec_invariant
              (fun w' => u < next_ua w' /\ ua (client w') <> Some u)
              (fun e => uses_ua u e = false)
              (step_keeps_replaced u) trace w (conj Hlt Hne))
    as [[_ H1] H2].
  split; assumption.
Qed.

Lemma replaced_user_agent_never_used_witness :
  let lib := Sample.lib_registered in
  let w := fst (exec [(lib, OpConnect)] (Sample.connected Sample.cfg)) in
  let trace := [(lib, OpCall "100"); (lib, OpDisconnect); (lib, OpConnect);
                (lib, OpDisconnect)] in
  ua (client w) = Some 1
  /\ ua (client (fst (exec trace w))) <> Some 0
  /\ Forall (fun e => uses_ua 0 e = false) (snd (exec trace w)).
Proof.
  intros lib w trace. split; [reflexivity |].
  apply (replaced_user_agent_never_used 0 trace w).
  - unfold w. cbn. lia.
  - unfold w. cbn. discriminate.
Defined.

(** ** [call], [isRegistered] and [disconnect] *)

(** X5. [isRegistered()] is exactly the precondition of [call]: a call
    returns normally if and only if [isRegistered()] is true at that moment,
    and throws ['Not registered'] otherwise.  So a call on a client that
    never connected, or that disconnected, always throws, whatever the
    library would report. *)
Theorem call_succeeds_iff_isRegistered
  (lib : Lib) (phoneNumber : string) (w : World) :
  (result_of (call lib phoneNumber w) = inr tt <-> isRegistered lib w = true)
  /\ (result_of (call lib phoneNumber w) = inl "Not registered"
      <-> isRegistered lib w = false)
  /\ (forall c, result_of (call lib phoneNumber (new_SIPClient c))
                = inl "Not registered")
  /\ result_of (call lib phoneNumber (world_of (disconnect w)))
     = inl "Not registered".
Proof.
  split; [| split; [| split]].
  - unfold call, isRegistered, bind, get_client, result_of.
    cbv beta iota. cbn [fst].
    destruct (ua (client w)) as [u|]; [| split; discriminate].
    destruct (ua_isRegistered lib u); cbn; split;
      try discriminate; reflexivity.
  - unfold call, isRegistered, bind, get_client, result_of.
    cbv beta iota. cbn [fst].
    destruct (ua (client w)) as [u|]; [| split; reflexivity].
    destruct (ua_isRegistered lib u); cbn; split;
      try discriminate; reflexivity.
  - reflexivity.
  - run_method. unfold result_of.
    destruct (ua (client w)) as [u|] eqn:Hu; cbn; [reflexivity |].
    rewrite Hu. reflexivity.
Qed.

Lemma call_succeeds_iff_isRegistered_witness :
  result_of (call Sample.lib_registered "100" (Sample.connected Sample.cfg))
  = inr tt.
Proof.
  apply (proj1 (call_succeeds_iff_isRegistered
                  Sample.lib_registered "100"
                  (Sample.connected Sample.cfg))).
  reflexivity.
Defined.

(** X6. [disconnect] leaves the call in progress alone: the current
    session stays current, so [hangup] and [answer] do after a [disconnect]
    what they would have done before it, and [disconnect] and [hangup] can
    be called in either order with the same final client. *)
Theorem disconnect_keeps_current_session (w : World) :
  currentSession (client (world_of (disconnect w)))
  = currentSession (client w)
  /\ effects_of (hangup (world_of (disconnect w))) = effects_of (hangup w)
  /\ effects_of (answer (world_of (disconnect w))) = effects_of (answer w)
  /\ effects_of (disconnect (world_of (hangup w))) = effects_of (disconnect w)
  /\ world_of (hangup (world_of (disconnect w)))
     = world_of (disconnect (world_of (hangup w))).
Proof.
  run_method.
  destruct (ua (client w)) as [u|] eqn:Hu;
    destruct (currentSession (client w)) as [s|] eqn:Hs;
    cbn; rewrite ?Hu, ?Hs; cbn; rewrite ?Hu, ?Hs;
    try destruct (String.eqb (direction s) "incoming");
    cbn; rewrite ?Hu, ?Hs; repeat split; reflexivity.
Qed.

(** ** Handlers stay *)

Lemma step_grows (lib : Lib) (i : Input) (w : World) :
  next_ua w <= next_ua (world_of (step lib i w))
  /\ incl (session_listeners w) (session_listeners (world_of (step lib i w))).
Proof.
  destruct i as [| |phone| | |u e|s e|pc kind stream].
  - connect_case lib w; cbn; (split; [lia | apply incl_refl]).
  - run_method. branch; cbn; (split; [lia | apply incl_refl]).
  - run_method. branch; cbn; (split; [lia | apply incl_refl]).
  - run_method. branch; cbn; (split; [lia | apply incl_refl]).
  - run_method. branch; cbn; (split; [lia | apply incl_refl]).
  - run_method. branch; [| split; [lia | apply incl_refl]].
    destruct e; cbv beta iota; cbn [fst snd app]; branch; cbn;
      (split; [lia | first [apply incl_refl | apply incl_tl, incl_refl]]).
  - rewrite step_session_eq.
    apply (repeatM_invariant
             (fun w' => next_ua w <= next_ua w'
                        /\ incl (session_listeners w) (session_listeners w'))
             (fun _ => True));
      [| split; [lia | apply incl_refl]].
    intros w' Hw'. destruct e; (split; [exact Hw' | each_effect ltac:(exact I)]).
  - run_method. branch; cbn; (split; [lia | apply incl_refl]).
Qed.

Lemma exec_grows (trace : list (Lib * Input)) (w : World) :
  next_ua w <= next_ua (fst (exec trace w))
  /\ incl (session_listeners w) (session_listeners (fst (exec trace w))).
Proof.
  apply (exec_invariant
           (fun w' => next_ua w <= next_ua w'
                      /\ incl (session_listeners w) (session_listeners w'))
           (fun _ => True)).
  - intros lib i w' [H1 H2]. destruct (step_grows lib i w') as [H3 H4].
    split; [split; [lia | eapply incl_tran; eassumption] |].
    clear. induction (effects_of (step lib i w')); constructor; auto.
  - split; [lia | apply incl_refl].
Qed.

(** X7. The client never takes a handler off.  After any run, also after
    [disconnect] or a later [connect], a connection event of a user agent it
    once created is still reported through [onConnectionChange], a session
    that such a user agent delivers still becomes the current one, and a
    state event of a session it once received is still reported through
    [onCallStateChange]. *)
Theorem handlers_are_never_removed
  (lib : Lib) (trace : list (Lib * Input)) (w : World) :
  let w' := fst (exec trace w) in
  (forall u e, u < next_ua w -> (forall s, e <> newRTCSession s) ->
     exists st, In (ConnectionChange st) (effects_of (step lib (EvUa u e) w')))
  /\ (forall u s, u < next_ua w ->
        currentSession
          (client (world_of (step lib (EvUa u (newRTCSession s)) w')))
        = Some s)
  /\ (forall s e, In s (session_listeners w) ->
        (forall pc, e <> peerconnection pc) ->
        exists st, In (CallStateChange st (Some s))
                      (effects_of (step lib (EvSession s e) w'))).
Proof.
  intros w'. destruct (exec_grows trace w) as [Hua Hl]. fold w' in Hua, Hl.
  split; [| split].
  - intros u e Hu He.
    assert (Hlt : (u <? next_ua w')%nat = true)
      by (apply Nat.ltb_lt; unfold UA in *; lia).
    run_method. rewrite Hlt.
    destruct e; cbn; eauto. destruct (He session eq_refl).
  - intros u s Hu.
    assert (Hlt : (u <? next_ua w')%nat = true)
      by (apply Nat.ltb_lt; unfold UA in *; lia).
    run_method. rewrite Hlt. cbn.
    destruct (String.eqb (direction s) "incoming"); reflexivity.
  - intros s e Hs He.
    destruct (listeners_on_positive s w' (Hl s Hs)) as [n Hn].
    rewrite step_session_eq, Hn.
    destruct (repeatM_session_unfold s e n w') as [_ El]. rewrite El.
    destruct e; try (eexists; apply in_or_app; left; cbn; eauto; fail).
    destruct (He pc eq_refl).
Qed.

Lemma handlers_are_never_removed_witness :
  let lib := Sample.lib_registered in
  let w' := fst (exec [(lib, OpHangup); (lib, OpDisconnect)]
                   (Sample.in_call Sample.incoming)) in
  (exists st, In (ConnectionChange st)
                 (effects_of (step lib (EvUa 0 unregistered) w')))
  /\ exists st, In (CallStateChange st (Some Sample.incoming))
                   (effects_of (step lib (EvSession Sample.incoming
                                            (ended "Terminated")) w')).
Proof.
  intros lib w'. split.
  - apply (proj1 (handlers_are_never_removed lib
                    [(lib, OpHangup); (lib, OpDisconnect)]
                    (Sample.in_call Sample.incoming)) 0 unregistered).
    + cbn. lia.
    + discriminate.
  - apply (proj2 (proj2 (handlers_are_never_removed lib
                    [(lib, OpHangup); (lib, OpDisconnect)]
                    (Sample.in_call Sample.incoming)))
             Sample.incoming (ended "Terminated")).
    + left. reflexivity.
    + discriminate.
Defined.

(** ** Two sessions *)

Lemma newRTCSession_world (lib : Lib) (w : World) (u : UA) (s : RTCSession) :
  u < next_ua w ->
  world_of (step lib (EvUa u (newRTCSession s)) w)
  = {| client := {| config := config (client w);
                    ua := ua (client w);
                    currentSession := Some s |};
       next_ua := next_ua w;
       session_listeners := s :: session_listeners w;
       ontrack := ontrack w |}.
Proof.
  intros Hu. apply Nat.ltb_lt in Hu.
  run_method. rewrite Hu.
  destruct (String.eqb (direction s) "incoming"); reflexivity.
Qed.

(** X8. The client tracks one session, the one delivered last, and any
    session that ends clears it.  When a session [s2] is delivered after a
    session [s1], [hangup] terminates [s2]; but once [s1] fails or ends, the
    client holds no session at all, and [hangup] does nothing although [s2]
    still carries the handlers. *)
Theorem end_of_old_session_drops_new_one
  (lib : Lib) (w : World) (u : UA) (s1 s2 : RTCSession) (e : SessionEvent) :
  u < next_ua w ->
  is_terminal e = true ->
  let two := [(lib, EvUa u (newRTCSession s1));
              (lib, EvUa u (newRTCSession s2))] in
  let w2 := fst (exec two w) in
  let w3 := world_of (step lib (EvSession s1 e) w2) in
  currentSession (client w2) = Some s2
  /\ effects_of (hangup w2) = [SessionTerminate s2]
  /\ currentSession (client w3) = None
  /\ In s2 (session_listeners w3)
  /\ hangup w3 = (inr tt, w3, [])
  /\ answer w3 = (inr tt, w3, []).
Proof.
  intros Hu Ht two w2 w3.
  assert (Hw2 : w2 = {| client := {| config := config (client w);
                                     ua := ua (client w);
                                     currentSession := Some s2 |};
                        next_ua := next_ua w;
                        session_listeners := s2 :: s1 :: session_listeners w;
                        ontrack := ontrack w |}).
  { unfold w2, two. rewrite exec_cons. cbn [fst]. rewrite exec_cons.
    cbn [fst exec].
    rewrite (newRTCSession_world lib w u s1 Hu).
    rewrite newRTCSession_world by exact Hu. reflexivity. }
  assert (Hin : In s1 (session_listeners w2))
    by (rewrite Hw2; right; left; reflexivity).
  destruct (listeners_on_positive s1 w2 Hin) as [n Hn].
  assert (Hcur : currentSession (client w3) = None).
  { unfold w3. rewrite step_session_eq, Hn.
    apply (repeatM_session_terminal s1 e n w2 Ht). }
  assert (Hkeep : In s2 (session_listeners w3)).
  { destruct (step_grows lib (EvSession s1 e) w2) as [_ Hincl].
    apply Hincl. rewrite Hw2. left. reflexivity. }
  split; [rewrite Hw2; reflexivity |].
  split; [rewrite Hw2; reflexivity |].
  split; [exact Hcur |]. split; [exact Hkeep |].
  split.
  - unfold hangup, bind, get_client. cbv beta iota. rewrite Hcur. reflexivity.
  - unfold answer, bind, get_client. cbv beta iota. rewrite Hcur. reflexivity.
Qed.

Lemma end_of_old_session_drops_new_one_witness :
  let lib := Sample.lib_registered in
  let w3 := fst (exec [(lib, EvUa 0 (newRTCSession Sample.incoming));
                       (lib, EvUa 0 (newRTCSession Sample.outgoing));
                       (lib, EvSession Sample.incoming (failed "Canceled"))]
                   (Sample.connected Sample.cfg)) in
  currentSession (client w3) = None
  /\ In Sample.outgoing (session_listeners w3)
  /\ hangup w3 = (inr tt, w3, []).
Proof.
  intros lib w3.
  destruct (end_of_old_session_drops_new_one lib
              (Sample.connected Sample.cfg) 0
              Sample.incoming Sample.outgoing (failed "Canceled")
              (Nat.lt_0_succ 0) eq_refl)
    as (_ & _ & H3 & H4 & H5 & _).
  split; [exact H3 | split; [exact H4 | exact H5]].
Defined.

(** ** Trimming *)

Lemma trimEnd_cons (c : ascii) (r : string) :
  JS.trimEnd (String c r)
  = match JS.trimEnd r with
    | EmptyString => if JS.is_ws c then EmptyString else String c EmptyString
    | String d r' => String c (String d r')
    end.
Proof. cbn [JS.trimEnd]. destruct (JS.trimEnd r); reflexivity. Qed.

Lemma trimEnd_idempotent (s : string) : JS.trimEnd (JS.trimEnd s) = JS.trimEnd s.
Proof.
  induction s as [|c r IH]; [reflexivity |].
  rewrite trimEnd_cons. destruct (JS.trimEnd r) as [|d r'] eqn:Hr.
  - destruct (JS.is_ws c) eqn:Hc; [reflexivity |].
    cbn [JS.trimEnd]. rewrite Hc. reflexivity.
  - rewrite trimEnd_cons, IH. reflexivity.
Qed.

Lemma trimStart_head (s : string) :
  match JS.trimStart s with
  | EmptyString => True
  | String c _ => JS.is_ws c = false
  end.
Proof.
  induction s as [|c r IH]; [exact I |].
  cbn [JS.trimStart]. destruct (JS.is_ws c) eqn:Hc; [exact IH | exact Hc].
Qed.

Lemma trimStart_trimEnd (t : string) :
  match t with
  | EmptyString => True
  | String c _ => JS.is_ws c = false
  end ->
  JS.trimStart (JS.trimEnd t) = JS.trimEnd t.
Proof.
  destruct t as [|c r]; [reflexivity |]. intros Hc.
  cbn [JS.trimEnd]. destruct (JS.trimEnd r); rewrite ?Hc;
    cbn [JS.trimStart]; rewrite Hc; reflexivity.
Qed.

Lemma trim_idempotent (s : string) : JS.trim (JS.trim s) = JS.trim s.
Proof.
  unfold JS.trim.
  rewrite (trimStart_trimEnd (JS.trimStart s) (trimStart_head s)).
  apply trimEnd_idempotent.
Qed.

Lemma trimStart_all_ws (s : string) :
  all_ws s = true -> JS.trimStart s = EmptyString.
Proof.
  induction s as [|c r IH]; [reflexivity |].
  cbn [all_ws JS.trimStart]. intros H. apply andb_true_iff in H.
  destruct H as [Hc Hr]. rewrite Hc. exact (IH Hr).
Qed.

Lemma trimEnd_empty (t : string) :
  JS.trimEnd t = EmptyString -> all_ws t = true.
Proof.
  induction t as [|c r IH]; [reflexivity |].
  cbn [JS.trimEnd all_ws]. destruct (JS.trimEnd r) as [|d r'].
  - destruct (JS.is_ws c); [| discriminate]. intros _. exact (IH eq_refl).
  - discriminate.
Qed.

(** A line counts as blank exactly when all of it is white space. *)
Lemma blank_iff_all_ws (s : string) :
  JS.truthy (JS.trim s) = negb (all_ws s).
Proof.
  induction s as [|c r IH]; [reflexivity |].
  unfold JS.trim in *. cbn [JS.trimStart all_ws].
  destruct (JS.is_ws c) eqn:Hc; [exact IH |].
  cbn [andb negb JS.trimEnd].
  destruct (JS.trimEnd r); rewrite ?Hc; reflexivity.
Qed.

Lemma trimEnd_snoc (c : ascii) (t : string) :
  JS.is_ws c = true ->
  JS.trimEnd (t ++ String c EmptyString)%string = JS.trimEnd t.
Proof.
  intros Hc. induction t as [|x r IH].
  - cbn. rewrite Hc. reflexivity.
  - cbn [append JS.trimEnd]. rewrite IH. reflexivity.
Qed.

Lemma trim_snoc (c : ascii) (s : string) :
  JS.is_ws c = true ->
  JS.trim (s ++ String c EmptyString)%string = JS.trim s.
Proof.
  intros Hc. unfold JS.trim. induction s as [|x r IH].
  - cbn. rewrite Hc. reflexivity.
  - cbn [append JS.trimStart]. destruct (JS.is_ws x); [exact IH |].
    apply (trimEnd_snoc c (String x r) Hc).
Qed.

(** ** The lines of the server list *)

Lemma all_ws_segments (sep : ascii) (s : string) :
  all_ws s = true ->
  all_ws (fst (JS.split_segments sep s)) = true
  /\ forallb all_ws (snd (JS.split_segments sep s)) = true.
Proof.
  induction s as [|c r IH]; [split; reflexivity |].
  cbn [all_ws JS.split_segments]. intros H. apply andb_true_iff in H.
  destruct H as [Hc Hr]. destruct (IH Hr) as [H1 H2].
  destruct (JS.split_segments sep r) as [h t]. cbn [fst snd] in *.
  destruct (Ascii.eqb c sep); cbn [fst snd forallb all_ws].
  - rewrite H1, H2. split; reflexivity.
  - rewrite Hc, H1. split; [reflexivity | exact H2].
Qed.

Lemma filter_none {A} (p : A -> bool) (l : list A) :
  forallb (fun x => negb (p x)) l = true -> filter p l = [].
Proof.
  induction l as [|x l IH]; [reflexivity |].
  cbn. intros H. apply andb_true_iff in H. destruct H as [Hx Hl].
  apply negb_true_iff in Hx. rewrite Hx. exact (IH Hl).
Qed.

(** X9. A line of the server list is skipped exactly when it consists of
    white space only (or is empty); every other line gives an entry.  So a
    configuration that is empty or all white space gives no server. *)
Theorem blank_lines_are_skipped :
  (forall s, parseStunServers s
             = map parseStunLine
                 (filter (fun l => negb (all_ws l)) (JS.split JS.LF s)))
  /\ (forall s, all_ws s = true -> parseStunServers s = []).
Proof.
  assert (Hfilter : forall s,
            stunLines s
            = filter (fun l => negb (all_ws l)) (JS.split JS.LF s)).
  { intros s. unfold stunLines. apply filter_ext. intros l.
    apply blank_iff_all_ws. }
  split.
  - intros s. unfold parseStunServers. rewrite Hfilter. reflexivity.
  - intros s Hs. unfold parseStunServers. rewrite Hfilter.
    destruct (all_ws_segments JS.LF s Hs) as [H1 H2].
    unfold JS.split. destruct (JS.split_segments JS.LF s) as [h t].
    cbn [fst snd] in *. rewrite filter_none; [reflexivity |].
    cbn [forallb]. rewrite H1. cbn.
    clear - H2. induction t as [|x t IH]; [reflexivity |].
    cbn in *. apply andb_true_iff in H2. destruct H2 as [Hx Ht].
    rewrite Hx. exact (IH Ht).
Qed.

Lemma blank_lines_are_skipped_witness :
  parseStunServers (String " " (String JS.LF (String "009" ""))) = [].
Proof.
  apply (proj2 blank_lines_are_skipped). reflexivity.
Defined.

(** X10. Whatever the text, every entry [parseStunServers] builds has
    exactly one URL, has a user name exactly when it has a credential, and
    carries its URL, user name and credential without white space at either
    end. *)
Theorem entries_are_well_shaped (s : string) :
  Forall entry_shape (parseStunServers s).
Proof.
  unfold parseStunServers. apply Forall_map. apply Forall_forall.
  intros line _. unfold parseStunLine, entry_shape, all_trimmed.
  destruct (JS.split_segments JS.COMMA line) as [p0 rest].
  destruct rest as [|p1 [|p2 [|p3 t]]]; cbn;
    (split; [reflexivity |]);
    (split; [split; intros H; first [reflexivity | discriminate] |]);
    repeat constructor; apply trim_idempotent.
Qed.

(** ** White space at the end of lines *)

Lemma extend_last_cons (c x : ascii) (h : string) (t : list string) :
  extend_last c (String x h) t
  = (String x (fst (extend_last c h t)), snd (extend_last c h t)).
Proof.
  destruct t as [|y t]; cbn [extend_last].
  - reflexivity.
  - destruct (extend_last c y t). reflexivity.
Qed.

Lemma split_segments_snoc (sep c : ascii) (a : string) :
  Ascii.eqb c sep = false ->
  JS.split_segments sep (a ++ String c EmptyString)%string
  = extend_last c (fst (JS.split_segments sep a))
      (snd (JS.split_segments sep a)).
Proof.
  intros Hc. induction a as [|x a IH].
  - cbn. rewrite Hc. reflexivity.
  - cbn [append JS.split_segments]. rewrite IH.
    destruct (JS.split_segments sep a) as [h t]. cbn [fst snd].
    destruct (Ascii.eqb x sep); cbn [fst snd].
    + cbn [extend_last]. destruct (extend_last c h t). reflexivity.
    + rewrite extend_last_cons. destruct (extend_last c h t). reflexivity.
Qed.

Lemma ws_is_no_comma (c : ascii) :
  JS.is_ws c = true -> Ascii.eqb c JS.COMMA = false.
Proof.
  intros H. destruct (Ascii.eqb c JS.COMMA) eqn:E; [| reflexivity].
  apply Ascii.eqb_eq in E. subst c. discriminate.
Qed.

Lemma parseStunLine_snoc (c : ascii) (line : string) :
  JS.is_ws c = true ->
  parseStunLine (line ++ String c EmptyString)%string = parseStunLine line.
Proof.
  intros Hc. unfold parseStunLine.
  rewrite (split_segments_snoc JS.COMMA c line (ws_is_no_comma c Hc)).
  destruct (JS.split_segments JS.COMMA line) as [p0 rest]. cbn [fst snd].
  destruct rest as [|p1 [|p2 [|p3 t]]]; cbn [extend_last].
  - rewrite (trim_snoc c p0 Hc). reflexivity.
  - reflexivity.
  - rewrite (trim_snoc c p2 Hc). reflexivity.
  - destruct t as [|p4 t]; [reflexivity |].
    cbn [extend_last]. destruct (extend_last c p4 t). reflexivity.
Qed.

Lemma lines_extend_last (c : ascii) (t : list string) :
  JS.is_ws c = true ->
  forall h,
    map parseStunLine
      (filter (fun line => JS.truthy (JS.trim line))
         (fst (extend_last c h t) :: snd (extend_last c h t)))
    = map parseStunLine
        (filter (fun line => JS.truthy (JS.trim line)) (h :: t)).
Proof.
  intros Hc. induction t as [|x t IH]; intros h.
  - cbn [extend_last fst snd filter]. rewrite (trim_snoc c h Hc).
    destruct (JS.truthy (JS.trim h)); cbn [map]; [| reflexivity].
    rewrite (parseStunLine_snoc c h Hc). reflexivity.
  - cbn [extend_last]. specialize (IH x).
    destruct (extend_last c x t) as [h' t']. cbn [fst snd] in *.
    cbn [filter] in *.
    destruct (JS.truthy (JS.trim h)); cbn [map]; rewrite IH; reflexivity.
Qed.

Lemma parseStunServers_snoc (c : ascii) (a : string) :
  JS.is_ws c = true ->
  parseStunServers (a ++ String c EmptyString)%string = parseStunServers a.
Proof.
  intros Hc. destruct (Ascii.eqb c JS.LF) eqn:E.
  - apply Ascii.eqb_eq in E. subst c. unfold parseStunServers.
    rewrite stunLines_app. cbn. rewrite app_nil_r. reflexivity.
  - unfold parseStunServers, stunLines, JS.split.
    rewrite (split_segments_snoc JS.LF c a E).
    destruct (JS.split_segments JS.LF a) as [h t]. cbn [fst snd].
    pose proof (lines_extend_last c t Hc h) as H.
    destruct (extend_last c h t) as [h' t']. exact H.
Qed.

Lemma append_snoc (a : string) (c : ascii) (b : string) :
  (a ++ String c b)%string = ((a ++ String c EmptyString) ++ b)%string.
Proof.
  induction a as [|x a IH]; cbn; [reflexivity | rewrite IH; reflexivity].
Qed.

(** X11. White space at the end of the server list, or at the end of any
    of its lines, changes nothing: the text gives the same servers with or
    without it.  In particular lines may end in CR LF instead of LF. *)
Theorem trailing_white_space_is_harmless :
  (forall ws a, all_ws ws = true ->
     parseStunServers (a ++ ws)%string = parseStunServers a)
  /\ (forall ws a b, all_ws ws = true ->
        parseStunServers (a ++ ws ++ String JS.LF b)%string
        = parseStunServers a ++ parseStunServers b)
  /\ (forall a b,
        parseStunServers
          (a ++ String (ascii_of_nat 13) (String JS.LF b))%string
        = parseStunServers a ++ parseStunServers b).
Proof.
  assert (Htail : forall ws a, all_ws ws = true ->
            parseStunServers (a ++ ws)%string = parseStunServers a).
  { induction ws as [|c ws IH]; intros a Hws.
    - replace (a ++ "")%string with a; [reflexivity |].
      clear. induction a as [|x a IH]; cbn; [| rewrite <- IH]; reflexivity.
    - cbn [all_ws] in Hws. apply andb_true_iff in Hws.
      destruct Hws as [Hc Hws].
      rewrite append_snoc, (IH _ Hws). apply parseStunServers_snoc.
      exact Hc. }
  assert (Hline : forall ws a b, all_ws ws = true ->
            parseStunServers (a ++ ws ++ String JS.LF b)%string
            = parseStunServers a ++ parseStunServers b).
  { intros ws a b Hws.
    replace (a ++ ws ++ String JS.LF b)%string
      with ((a ++ ws) ++ String JS.LF b)%string.
    - unfold parseStunServers at 1. rewrite stunLines_app, map_app.
      fold (parseStunServers (a ++ ws)). fold (parseStunServers b).
      rewrite (Htail ws a Hws). reflexivity.
    - clear. induction a as [|x a IH]; [reflexivity |].
      cbn [append]. f_equal. exact IH. }
  split; [exact Htail | split; [exact Hline |]].
  intros a b.
  apply (Hline (String (ascii_of_nat 13) EmptyString) a b eq_refl).
Qed.

Lemma trailing_white_space_is_harmless_witness :
  parseStunServers
    ("turn:turn.example.com:3478,bob,secret"
     ++ String (ascii_of_nat 13) (String JS.LF (String " " "")))%string
  = parseStunServers "turn:turn.example.com:3478,bob,secret".
Proof.
  apply (proj1 trailing_white_space_is_harmless). reflexivity.
Defined.

(** ** Answering more than once *)

Lemma live_event_keeps_client
  (s : RTCSession) (e : SessionEvent) (n : nat) (w : World) :
  is_terminal e = false ->
  client (world_of (repeatM n (on_session_event s e) w)) = client w.
Proof.
  intros He.
  apply (repeatM_invariant (fun w' => client w' = client w) (fun _ => True));
    [| reflexivity].
  intros w' Hw'. destruct e; try discriminate;
    (split; [| each_effect ltac:(exact I)]); cbn; try exact Hw'.
Qed.

(** X12. [answer] keeps no record of having answered.  As long as an
    incoming session is the current one, every [answer] calls
    [session.answer] on it with the same options: a second [answer] right
    after the first, and an [answer] after the library reported progress,
    acceptance or confirmation of that session. *)
Theorem answer_does_not_remember
  (lib : Lib) (w : World) (s : RTCSession) (e : SessionEvent) :
  currentSession (client w) = Some s ->
  direction s = "incoming" ->
  is_terminal e = false ->
  exists options,
    effects_of (answer w) = [SessionAnswer s options]
    /\ effects_of (answer (world_of (answer w))) = [SessionAnswer s options]
    /\ effects_of (answer (world_of (step lib (EvSession s e) w)))
       = [SessionAnswer s options].
Proof.
  intros Hs Hd He.
  assert (Hans : forall w', client w' = client w ->
            effects_of (answer w')
            = [SessionAnswer s
                 {| mediaConstraints := {| audio := true; video := false |};
                    pcConfig :=
                      {| iceServers :=
                           parseStunServers (stunServers (config (client w)));
                         iceTransportPolicy := "all" |};
                    rtcOfferConstraints := None |}]).
  { intros w' Hw'. run_method. rewrite Hw', Hs.
    apply String.eqb_eq in Hd. rewrite Hd. reflexivity. }
  eexists. split; [apply Hans; reflexivity |]. split.
  - apply Hans. run_method. rewrite Hs.
    apply String.eqb_eq in Hd. rewrite Hd. reflexivity.
  - apply Hans. rewrite step_session_eq.
    apply live_event_keeps_client. exact He.
Qed.

Lemma answer_does_not_remember_witness :
  exists options,
    effects_of (answer (Sample.in_call Sample.incoming))
    = [SessionAnswer Sample.incoming options]
    /\ effects_of (answer (world_of (answer (Sample.in_call Sample.incoming))))
       = [SessionAnswer Sample.incoming options]
    /\ effects_of
         (answer (world_of (step Sample.lib_registered
                              (EvSession Sample.incoming accepted)
                              (Sample.in_call Sample.incoming))))
       = [SessionAnswer Sample.incoming options].
Proof.
  apply (answer_does_not_remember Sample.lib_registered
           (Sample.in_call Sample.incoming) Sample.incoming accepted);
    reflexivity.
Defined.

(** ** A [connect] that fails *)



(** ** The invite target *)

Lemma exec_invariant_good (Good : Lib -> Prop) (Inv : World -> Prop) :
  (forall lib i w, Good lib -> Inv w -> Inv (world_of (step lib i w))) ->
  forall trace w,
    Forall (fun li => Good (fst li)) trace ->
    Inv w -> Inv (fst (exec trace w)).
Proof.
  intros Hstep. induction trace as [|[lib i] rest IH]; intros w Hgood Hw.
  - exact Hw.
  - rewrite exec_cons. cbn [fst].
    apply IH; [exact (Forall_inv_tail Hgood) |].
    apply Hstep; [exact (Forall_inv Hgood) | exact Hw].
Qed.

(** With a library that validates the URI, a client that holds a user agent
    has a URI with at most one [@]: the user agent was made from it. *)
Ltac keep :=
  split;
  [ assumption
  | first [ left; reflexivity | left; assumption | assumption
          | match goal with
            | H : _ \/ _ |- _ =>
                destruct H as [H | H]; [discriminate | right; exact H]
            end ] ].

Lemma step_keeps_valid_uri (c : SIPConfig) (lib : Lib) (i : Input) (w : World) :
  validates_uri lib ->
  config (client w) = c
  /\ (ua (client w) = None \/ at_most_one JS.AT (uri c) = true) ->
  config (client (world_of (step lib i w))) = c
  /\ (ua (client (world_of (step lib i w))) = None
      \/ at_most_one JS.AT (uri c) = true).
Proof.
  intros Hlib [Hc Hua].
  pose proof Hua as Hua0.
  destruct i as [| |phone| | |u e|s e|pc kind stream].
  - connect_case lib w; cbn [client config ua].
    + split; assumption.
    + split; [exact Hc | right].
      rewrite <- Hc, <- Huri. apply Hlib. exact Hacc.
  - run_method. branch; cbn [client config ua]; keep.
  - run_method. branch; keep.
  - run_method. branch; keep.
  - run_method. branch; cbn [client config ua]; keep.
  - run_method. branch; [| keep].
    destruct e; cbv beta iota; cbn [fst snd app]; branch;
      cbn [client config ua]; keep.
  - rewrite step_session_eq.
    apply (repeatM_invariant
             (fun w' => config (client w') = c
                        /\ (ua (client w') = None
                            \/ at_most_one JS.AT (uri c) = true))
             (fun _ => True)); [| split; assumption].
    intros w' Hw'. destruct e; (split; [exact Hw' | each_effect ltac:(exact I)]).
  - run_method. branch; keep.
Qed.

Lemma call_target_single_at
  (lib : Lib) (phoneNumber : string) (w : World) (u : UA) :
  ua (client w) = Some u ->
  ua_isRegistered lib u = true ->
  at_most_one JS.AT (uri (config (client w))) = true ->
  exists options,
    call lib phoneNumber w
    = (inr tt, w,
       [ConsoleLog ["Calling:";
                    ("sip:" ++ phoneNumber ++ "@"
                     ++ JS.template
                          (after_first JS.AT (uri (config (client w)))))%string];
        UaCall u
          ("sip:" ++ phoneNumber ++ "@"
           ++ JS.template
                (after_first JS.AT (uri (config (client w)))))%string
          options]).
Proof.
  intros Hu Hreg Hone.
  assert (Hh : nth_error (JS.split JS.AT (uri (config (client w)))) 1
               = after_first JS.AT (uri (config (client w)))).
  { rewrite split_second. unfold at_most_one in Hone.
    destruct (after_first JS.AT (uri (config (client w)))) as [r|];
      [| reflexivity].
    cbn [option_map]. destruct (after_first JS.AT r) eqn:Hr;
      [discriminate |].
    rewrite (before_first_absent _ _ Hr). reflexivity. }
  unfold call, bind, get_client, emit. cbv beta iota.
  rewrite Hu, Hreg, Hh. cbn [negb]. eexists. reflexivity.
Qed.

(** C9.  Take a library that accepts no URI with a second [@], as no SIP
    URI has one.  Then wherever a run has brought the client, a [call] that
    finds it registered announces, for every phone number, the target
    ["sip:" + phoneNumber + "@" + h], where [h] is what follows the first
    [@] of the configured URI.  Nothing in the class checks the phone number
    or the URI: when the URI has no [@], [h] is [undefined] and the target
    ends in the text [undefined]. *)
Theorem call_invite_target
  (c : SIPConfig) (trace : list (Lib * Input)) (lib : Lib)
  (phoneNumber : string) (u : UA) :
  Forall (fun li => validates_uri (fst li)) trace ->
  let w := fst (exec trace (new_SIPClient c)) in
  ua (client w) = Some u ->
  ua_isRegistered lib u = true ->
  let target :=
    ("sip:" ++ phoneNumber ++ "@"
     ++ JS.template (after_first JS.AT (uri c)))%string in
  (exists options,
     call lib phoneNumber w
     = (inr tt, w, [ConsoleLog ["Calling:"; target];
                    UaCall u target options]))
  /\ (after_first JS.AT (uri c) = None ->
      target = ("sip:" ++ phoneNumber ++ "@undefined")%string).
Proof.
  intros Hgood w Hu Hreg target.
  assert (Hinv : config (client w) = c
                 /\ (ua (client w) = None
                     \/ at_most_one JS.AT (uri c) = true)).
  { apply (exec_invariant_good validates_uri
             (fun w' => config (client w') = c
                        /\ (ua (client w') = None
                            \/ at_most_one JS.AT (uri c) = true))).
    - intros lib0 i w0 Hl Hw0. apply step_keeps_valid_uri; assumption.
    - exact Hgood.
    - split; [reflexivity | left; reflexivity]. }
  destruct Hinv as [Hc [Hnone | Hone]]; [rewrite Hnone in Hu; discriminate |].
  split.
  - unfold target. rewrite <- Hc.
    apply call_target_single_at; [exact Hu | exact Hreg |].
    rewrite Hc. exact Hone.
  - intros Hno. unfold target. rewrite Hno. reflexivity.
Qed.

Lemma sample_library_validates_uri : validates_uri Sample.lib_registered.
Proof.
  intros c H. change (Sample.refuse_second_at c = None) in H.
  unfold Sample.refuse_second_at in H.
  destruct (at_most_one JS.AT (cfg_uri c)); [reflexivity | discriminate].
Qed.

Lemma call_invite_target_witness :
  exists options,
    call Sample.lib_registered "100" (Sample.connected Sample.cfg)
    = (inr tt, Sample.connected Sample.cfg,
       [ConsoleLog ["Calling:"; "sip:100@example.com"];
        UaCall 0 "sip:100@example.com" options]).
Proof.
  apply (proj1 (call_invite_target Sample.cfg
                  [(Sample.lib_registered, OpConnect)]
                  Sample.lib_registered "100" 0
                  (Forall_cons (P := fun li => validates_uri (fst li))
                     (Sample.lib_registered, OpConnect)
                     sample_library_validates_uri (Forall_nil _))
                  eq_refl eq_refl)).
Defined.
